(** * The KWebUI controller: reconciliation of the kubevirt-web-ui deployment

    A shallow embedding of [pkg/controller/kwebui/kwebui_controller.go].
    The controller talks to three outside parties: the cluster API (through
    the controller-runtime client), the local file system (ephemeral
    kubeconfig and inventory files) and child processes ([oc],
    [ansible-playbook]).  They are modelled by one [World] value that every
    function threads: it holds the stored objects, the files, the scripted
    outcome of every fallible outside call, and a record of the calls made.
    Log output is not part of the [World]; what [pipeToLog] and
    [logPerLine] write is modelled on its own. *)

From Stdlib Require Import ZArith String Ascii List Lia.
From stdpp Require Import base option gmap strings list fin_maps.

Import ListNotations.
Local Open Scope string_scope.
Local Open Scope list_scope.
Local Open Scope Z_scope.

(** ** Go strings

    A Go string is a sequence of bytes; [string] of the Standard Library is
    a sequence of 8-bit characters.  The functions of package [strings] that
    the controller calls are modelled after their documentation. *)

Module strings.

(** [len(s)] as a Go [int]. *)
Definition len (s : string) : Z := Z.of_nat (String.length s).

(** [strings.HasPrefix(s, prefix)]. *)
Definition HasPrefix (s prefix : string) : bool := String.prefix prefix s.

(** [s[n:]] for [0 <= n <= len(s)]. *)
Fixpoint slice_from (n : nat) (s : string) : string :=
  match n, s with
  | O, _ => s
  | S n', String _ rest => slice_from n' rest
  | S _, EmptyString => EmptyString
  end.

(** [strings.TrimPrefix(s, prefix)]: [s] without the leading [prefix], or
    [s] itself when it does not start with [prefix]. *)
Definition TrimPrefix (s prefix : string) : string :=
  if HasPrefix s prefix then slice_from (String.length prefix) s else s.

(** [strings.LastIndex(s, substr)]: the index of the last instance of
    [substr] in [s], or [-1].  [pos] is the index of the head of [s] in the
    string the search started from. *)
Fixpoint LastIndex_at (pos : Z) (s substr : string) : Z :=
  match s with
  | EmptyString => if HasPrefix s substr then pos else -1
  | String _ rest =>
      let later := LastIndex_at (pos + 1) rest substr in
      if 0 <=? later then later
      else if HasPrefix s substr then pos else -1
  end.

Definition LastIndex (s substr : string) : Z := LastIndex_at 0 s substr.

(** [strings.Join(elems, sep)]. *)
Definition Join (elems : list string) (sep : string) : string :=
  String.concat sep elems.

End strings.

(** ** Constants of the controller *)

Definition PlaybookFile : string :=
  "/kubevirt-web-ui-ansible/playbooks/kubevirt-web-ui/config.yml".
Definition WebUIContainerName : string := "console".

Definition PhaseFreshProvision : string := "PROVISION_STARTED".
Definition PhaseProvisioned : string := "PROVISIONED".
Definition PhaseProvisionFailed : string := "PROVISION_FAILED".
Definition PhaseDeprovision : string := "DEPROVISION_STARTED".
Definition PhaseDeprovisioned : string := "DEPROVISIONED".
Definition PhaseDeprovisionFailed : string := "DEPROVISION_FAILED".
Definition PhaseOtherError : string := "OTHER_ERROR".
Definition PhaseNoDeployment : string := "NOT_DEPLOYED".
Definition PhaseOwnerReferenceFailed : string := "OWNER_REFERENCE_FAILED".

(** [fmt.Sprintf(InventoryFilePattern, s)] and
    [fmt.Sprintf(ConfigFilePattern, s)]. *)
Definition InventoryFilePattern (s : string) : string :=
  "/tmp/inventory_" +:+ s +:+ ".ini".
Definition ConfigFilePattern (s : string) : string := "/tmp/config_" +:+ s.

(** ** Pure helpers of the controller *)

(** [def]: the default [defVal] for an empty [s]. *)
Definition def (s defVal : string) : string :=
  if decide (s = "") then defVal else s.

(** [afterLast]: what follows the last occurrence of [a] in [value]; empty
    when [a] does not occur or nothing follows it. *)
Definition afterLast (value a : string) : string :=
  let pos := strings.LastIndex value a in
  if decide (pos = -1) then ""
  else
    let adjustedPos := pos + strings.len a in
    if decide (adjustedPos >= strings.len value) then ""
    else strings.slice_from (Z.to_nat adjustedPos) value.

(** ** Objects of the cluster API

    The type declarations of [kubevirtv1alpha1.KWebUI] live in
    [pkg/apis/kubevirt/v1alpha1]; the records below carry the fields the
    controller reads and writes.  An object's namespace and name identify it
    and never change, so the embedding keeps them as the key under which the
    object is stored instead of as fields. *)

Abbreviation NamespacedName := (string * string)%type (only parsing).

Record KWebUISpec := mkKWebUISpec {
  Version : string;
  RegistryUrl : string;
  RegistryNamespace : string;
  OpenshiftMasterDefaultSubdomain : string;
  PublicMasterHostname : string
}.

Record KWebUIStatus := mkKWebUIStatus {
  Phase : string;
  Message : string
}.

Record KWebUI := mkKWebUI {
  UID : string;
  Spec : KWebUISpec;
  Status : KWebUIStatus
}.

Record OwnerReference := mkOwnerReference {
  OwnerKind : string;
  OwnerName : string;
  OwnerUID : string;
  Controller : bool
}.

Record Container := mkContainer {
  Name : string;
  Image : string
}.

(** [extensionsv1beta1.Deployment]: its owner references and
    [Spec.Template.Spec.Containers]. *)
Record Deployment := mkDeployment {
  OwnerReferences : list OwnerReference;
  Containers : list Container
}.

Inductive Kind := KindKWebUI | KindDeployment.

#[global] Instance Kind_eq_dec : EqDecision Kind.
Proof. solve_decision. Defined.

Inductive Object :=
| ObjKWebUI (o : KWebUI)
| ObjDeployment (d : Deployment).

Definition kindOf (o : Object) : Kind :=
  match o with
  | ObjKWebUI _ => KindKWebUI
  | ObjDeployment _ => KindDeployment
  end.

(** ** Errors and results *)

Inductive error :=
| ErrNotFound                 (* an API error for which [errors.IsNotFound] holds *)
| ErrOther (msg : string).    (* every other error value *)

Definition IsNotFound (e : error) : bool :=
  match e with
  | ErrNotFound => true
  | ErrOther _ => false
  end.

(** [reconcile.Result]; the controller only ever builds the zero value. *)
Record Result := mkResult { Requeue : bool }.
Definition Result_zero : Result := mkResult false.

Record Request := mkRequest {
  ReqNamespace : string;
  ReqName : string
}.

Definition Request_NamespacedName (request : Request) : NamespacedName :=
  (ReqNamespace request, ReqName request).

(** [rest.Config] as far as [loginClient] reads it. *)
Record RestConfig := mkRestConfig {
  Host : string;
  CAFile : string;
  BearerToken : string
}.

(** ** The world outside the controller *)

(** What child processes and the controller share: stored objects and
    files (path to content). *)
Record System := mkSystem {
  kwebuis : gmap (string * string) KWebUI;
  deployments : gmap (string * string) Deployment;
  files : gmap string string
}.

(** One child process as [exec.Command] describes it. *)
Record Invocation := mkInvocation {
  inv_cmd : string;
  inv_args : list string;
  inv_env : list string
}.

(** The behaviour of one child process: it fails to start, or it runs,
    changes the system as it likes, and exits with or without an error. *)
Inductive Process :=
| StartFails (e : error)
| Runs (effect : Invocation -> System -> System) (exit : option error).

(** The calls the controller makes to the outside, in the order made. *)
Inductive Event :=
| ApiGet (k : Kind) (key : string * string)
| ApiUpdate (k : Kind) (key : string * string) (o : Object)
| FsCreate (path : string)
| FsWrite (path : string) (data : string)
| FsRemove (path : string)
| Exec (i : Invocation).

(** The state every controller function threads.  The four queues script
    the outside: each fallible call consumes the head of its queue, and an
    empty queue means the call goes well ([entropy]: the random source has
    failed). *)
Record World := mkWorld {
  sys : System;
  inClusterConfig : error + RestConfig;   (* what [rest.InClusterConfig] returns *)
  environ : list string;                  (* [os.Environ()] *)
  api_faults : list (option error);       (* per [client.Get] / [client.Update] *)
  fs_faults : list (option error);        (* per [os.Create] / [WriteString] / [os.Remove] *)
  entropy : list (option (list N));       (* per [rand.Read] *)
  procs : list Process;                   (* per [exec.Command(...).Start] *)
  trace : list Event
}.

Definition set_sys (s : System) (w : World) : World :=
  mkWorld s (inClusterConfig w) (environ w) (api_faults w) (fs_faults w)
          (entropy w) (procs w) (trace w).
Definition set_api_faults (q : list (option error)) (w : World) : World :=
  mkWorld (sys w) (inClusterConfig w) (environ w) q (fs_faults w)
          (entropy w) (procs w) (trace w).
Definition set_fs_faults (q : list (option error)) (w : World) : World :=
  mkWorld (sys w) (inClusterConfig w) (environ w) (api_faults w) q
          (entropy w) (procs w) (trace w).
Definition set_entropy (q : list (option (list N))) (w : World) : World :=
  mkWorld (sys w) (inClusterConfig w) (environ w) (api_faults w) (fs_faults w)
          q (procs w) (trace w).
Definition set_procs (q : list Process) (w : World) : World :=
  mkWorld (sys w) (inClusterConfig w) (environ w) (api_faults w) (fs_faults w)
          (entropy w) q (trace w).
Definition emit (e : Event) (w : World) : World :=
  mkWorld (sys w) (inClusterConfig w) (environ w) (api_faults w) (fs_faults w)
          (entropy w) (procs w) (trace w ++ [e]).

Definition set_kwebuis (m : gmap (string * string) KWebUI) (s : System) : System :=
  mkSystem m (deployments s) (files s).
Definition set_deployments (m : gmap (string * string) Deployment) (s : System) : System :=
  mkSystem (kwebuis s) m (files s).
Definition set_files (m : gmap string string) (s : System) : System :=
  mkSystem (kwebuis s) (deployments s) m.

(** ** A state monad over [World] *)

Definition M (A : Type) : Type := World -> A * World.

Definition ret {A} (a : A) : M A := fun w => (a, w).
Definition bind {A B} (m : M A) (k : A -> M B) : M B :=
  fun w => let (a, w') := m w in k a w'.

Notation "'let*' x ':=' c 'in' k" := (bind c (fun x => k))
  (at level 10, x pattern, c at level 100, k at level 200).
Notation "c ';;' k" := (bind c (fun _ => k))
  (at level 100, k at level 200, right associativity).

(** The head of a fault queue. *)
Definition pop_fault (q : list (option error)) : option error * list (option error) :=
  match q with
  | [] => (None, [])
  | f :: q' => (f, q')
  end.

Definition api_fault : M (option error) := fun w =>
  let (f, q) := pop_fault (api_faults w) in (f, set_api_faults q w).
Definition fs_fault : M (option error) := fun w =>
  let (f, q) := pop_fault (fs_faults w) in (f, set_fs_faults q w).
Definition record (e : Event) : M unit := fun w => (tt, emit e w).
Definition get_sys : M System := fun w => (sys w, w).
Definition put_sys (s : System) : M unit := fun w => (tt, set_sys s w).

(** ** The controller-runtime client *)

(** [r.client.Get(ctx, key, &KWebUI{})]. *)
Definition client_Get_KWebUI (key : NamespacedName) : M (error + KWebUI) :=
  record (ApiGet KindKWebUI key) ;;
  let* fault := api_fault in
  match fault with
  | Some e => ret (inl e)
  | None =>
      let* s := get_sys in
      match kwebuis s !! key with
      | Some o => ret (inr o)
      | None => ret (inl ErrNotFound)
      end
  end.

(** [r.client.Get(ctx, key, &Deployment{})]. *)
Definition client_Get_Deployment (key : NamespacedName) : M (error + Deployment) :=
  record (ApiGet KindDeployment key) ;;
  let* fault := api_fault in
  match fault with
  | Some e => ret (inl e)
  | None =>
      let* s := get_sys in
      match deployments s !! key with
      | Some d => ret (inr d)
      | None => ret (inl ErrNotFound)
      end
  end.

(** [r.client.Update(ctx, obj)] for the object stored under [key]: the
    stored object is replaced as a whole; updating what is not stored is a
    not-found error. *)
Definition client_Update (key : NamespacedName) (obj : Object) : M (option error) :=
  record (ApiUpdate (kindOf obj) key obj) ;;
  let* fault := api_fault in
  match fault with
  | Some e => ret (Some e)
  | None =>
      let* s := get_sys in
      match obj with
      | ObjKWebUI o =>
          match kwebuis s !! key with
          | Some _ => put_sys (set_kwebuis (<[key := o]> (kwebuis s)) s) ;; ret None
          | None => ret (Some ErrNotFound)
          end
      | ObjDeployment d =>
          match deployments s !! key with
          | Some _ => put_sys (set_deployments (<[key := d]> (deployments s)) s) ;; ret None
          | None => ret (Some ErrNotFound)
          end
      end
  end.

(** ** Files, randomness and child processes *)

Definition nl : string := String (ascii_of_nat 10) "".

(** [os.Create(path)]: creates or truncates the file. *)
Definition os_Create (path : string) : M (option error) :=
  record (FsCreate path) ;;
  let* fault := fs_fault in
  match fault with
  | Some e => ret (Some e)
  | None =>
      let* s := get_sys in
      put_sys (set_files (<[path := ""]> (files s)) s) ;; ret None
  end.

(** [f.WriteString(data)] on the file created at [path]: appends. *)
Definition WriteString (path data : string) : M (option error) :=
  record (FsWrite path data) ;;
  let* fault := fs_fault in
  match fault with
  | Some e => ret (Some e)
  | None =>
      let* s := get_sys in
      put_sys (set_files (alter (fun old => old +:+ data) path (files s)) s) ;; ret None
  end.

(** [os.Remove(path)]: removing what does not exist is an error. *)
Definition os_Remove (path : string) : M (option error) :=
  record (FsRemove path) ;;
  let* fault := fs_fault in
  match fault with
  | Some e => ret (Some e)
  | None =>
      let* s := get_sys in
      match files s !! path with
      | Some _ => put_sys (set_files (delete path (files s)) s) ;; ret None
      | None => ret (Some (ErrOther "no such file or directory"))
      end
  end.

(** [fmt.Sprintf("%X", b)] for a byte slice: two upper-case hexadecimal
    digits per byte. *)
Definition hexDigit (n : N) : ascii :=
  if (n <? 10)%N then ascii_of_N (48 + n) else ascii_of_N (55 + n).

Definition Sprintf_X (b : list N) : string :=
  fold_right (fun byte acc =>
                String (hexDigit (byte / 16)) (String (hexDigit (byte mod 16)) acc))
             "" b.

(** [rand.Read(b)] for the five-byte [b] of [unique]: the bytes, or [None]
    on a read error. *)
Definition rand_Read : M (option (list N)) := fun w =>
  match entropy w with
  | [] => (None, w)
  | r :: q =>
      (option_map (fun bs => firstn 5 (map (fun n => n mod 256)%N bs ++ repeat 0%N 5)) r,
       set_entropy q w)
  end.

Definition unique : M string :=
  let* b := rand_Read in
  match b with
  | None => ret "abcde"
  | Some b => ret (Sprintf_X b)
  end.

Definition next_process : M Process := fun w =>
  match procs w with
  | [] => (Runs (fun _ s => s) None, w)
  | p :: q => (p, set_procs q w)
  end.

(** [runCommand]: start the child with the environment extended by [env],
    wait for it, and report a start or exit failure.  [anonymArgs] only
    feeds the log; the two goroutines that copy the child's output to the
    log have no other effect. *)
Definition runCommand (cmd : string) (args env anonymArgs : list string) : M (option error) :=
  fun w =>
  let command := mkInvocation cmd args (environ w ++ env) in
  (record (Exec command) ;;
   let* p := next_process in                        (* command.Start() *)
   match p with
   | StartFails err => ret (Some err)
   | Runs effect exit =>
       let* s := get_sys in
       put_sys (effect command s) ;;
       match exit with                              (* command.Wait() *)
       | Some err => ret (Some err)
       | None => ret None
       end
   end) w.

(** [removeFile]: a failed removal is logged and nothing more. *)
Definition removeFile (name : string) : M unit :=
  let* err := os_Remove name in
  match err with
  | Some _ => ret tt
  | None => ret tt
  end.

(** ** Status and ownership *)

(** [ReconcileKWebUI]: the client is the [World]; the scheme lists the kinds
    registered with it. *)
Record ReconcileKWebUI := mkReconcileKWebUI { scheme : list Kind }.

Definition set_status (phase msg : string) (instance : KWebUI) : KWebUI :=
  mkKWebUI (UID instance) (Spec instance) (mkKWebUIStatus phase msg).

Definition updateStatus (r : ReconcileKWebUI) (request : Request)
    (phase msg : string) : M unit :=
  let* got := client_Get_KWebUI (Request_NamespacedName request) in
  match got with
  | inl _ => ret tt
  | inr instance =>
      let instance := set_status phase msg instance in
      let* err := client_Update (Request_NamespacedName request) (ObjKWebUI instance) in
      match err with
      | Some _ => ret tt
      | None => ret tt
      end
  end.

(** [controllerutil.SetControllerReference(owner, object, scheme)] of
    controller-runtime, on the in-memory [object]: the owner's kind must be
    registered, and another controller must not own the object already. *)
Definition referSameObject (a b : OwnerReference) : bool :=
  bool_decide (OwnerKind a = OwnerKind b) && bool_decide (OwnerName a = OwnerName b).

Definition SetControllerReference (ownerName : string) (owner : KWebUI)
    (object : Deployment) (scheme : list Kind) : Deployment * option error :=
  if negb (bool_decide (KindKWebUI ∈ scheme))
  then (object, Some (ErrOther "no kind is registered for the type v1alpha1.KWebUI"))
  else
    let ref := mkOwnerReference "KWebUI" ownerName (UID owner) true in
    let existingRefs := OwnerReferences object in
    if existsb (fun r => negb (referSameObject ref r) && Controller r) existingRefs
    then (object, Some (ErrOther "Object is already owned by another controller"))
    else
      let others := filter (fun r => referSameObject ref r = false) existingRefs in
      (mkDeployment (others ++ [ref]) (Containers object), None).

Definition msgDeploymentNotRetrieved : string :=
  "Failed to retrieve the just created kubevirt-web-ui Deployment object to set owner reference.".

(** [setOwnerReference].  The result of [SetControllerReference] is not
    assigned: [err] is still the [nil] of the successful [Get] when it is
    tested the second time, and the deployment that received the reference
    is a local copy. *)
Definition setOwnerReference (r : ReconcileKWebUI) (request : Request)
    (instance : KWebUI) : M (option error) :=
  let* got := client_Get_Deployment (ReqNamespace request, "console") in
  match got with
  | inl err =>
      let msg := msgDeploymentNotRetrieved in
      updateStatus r request PhaseOwnerReferenceFailed msg ;;
      ret (Some err)
  | inr deployment =>
      let err : option error := None in
      let _unused := SetControllerReference (ReqName request) instance deployment (scheme r) in
      match err with
      | Some err =>
          let msg := "Failed to set Operator CR as the owner of the kubevirt-web-ui Deployment object." in
          updateStatus r request PhaseOwnerReferenceFailed msg ;;
          ret (Some err)
      | None => ret None
      end
  end.

(** ** The provisioning workflow *)

Definition rest_InClusterConfig : M (error + RestConfig) :=
  fun w => (inClusterConfig w, w).

Definition loginClient (namespace : string) : M (string * option error) :=
  let* config := rest_InClusterConfig in
  match config with
  | inl err => ret ("", Some err)
  | inr config =>
      let* suffix := unique in
      let configFile := ConfigFilePattern suffix in
      let env := ["KUBECONFIG=" +:+ configFile] in
      let args := ["login";
                   Host config;
                   "--certificate-authority=" +:+ CAFile config;
                   "--token=" +:+ BearerToken config] in
      let anonymArgs : list string := ([] ++ args)%list in
      let* err := runCommand "oc" args env anonymArgs in
      match err with
      | Some err => ret ("", Some err)
      | None =>
          let args := ["project"; namespace] in
          let* err := runCommand "oc" args env args in
          match err with
          | Some err => ret ("", Some err)
          | None => ret (configFile, None)
          end
      end
  end.

Definition when_ {A} (b : bool) (c : M A) : M unit :=
  if b then (c ;; ret tt) else ret tt.

(** [generateInventory].  Only the error of the last [WriteString] is
    looked at; [f.Close()] and [f.Sync()] change nothing that is modelled. *)
Definition generateInventory (instance : KWebUI) (namespace action : string)
    : M (string * option error) :=
  let* suffix := unique in
  let inventoryFile := InventoryFilePattern suffix in
  let* err := os_Create inventoryFile in
  match err with
  | Some err => ret ("", Some err)
  | None =>
      let f := inventoryFile in
      WriteString f ("[OSEv3:children]" +:+ nl +:+ "masters" +:+ nl +:+ nl) ;;
      WriteString f ("[OSEv3:vars]" +:+ nl) ;;
      WriteString f ("platform=openshift" +:+ nl) ;;
      WriteString f (strings.Join ["apb_action="; action; nl] "") ;;
      WriteString f (strings.Join ["registry_url="; def (RegistryUrl (Spec instance)) "quay.io"; nl] "") ;;
      WriteString f (strings.Join ["registry_namespace="; def (RegistryNamespace (Spec instance)) "kubevirt"; nl] "") ;;
      WriteString f (strings.Join ["docker_tag="; def (Version (Spec instance)) "v1.4"; nl] "") ;;
      WriteString f (strings.Join ["kubevirt_web_ui_namespace="; def namespace "kubevirt-web-ui"; nl] "") ;;
      when_ (bool_decide (action = "deprovision"))
        (WriteString f ("preserve_namespace=true" +:+ nl)) ;;
      when_ (bool_decide (OpenshiftMasterDefaultSubdomain (Spec instance) ≠ ""))
        (WriteString f ("openshift_master_default_subdomain=" +:+
                        OpenshiftMasterDefaultSubdomain (Spec instance) +:+ nl)) ;;
      when_ (bool_decide (PublicMasterHostname (Spec instance) ≠ ""))
        (WriteString f ("public_master_hostname=" +:+
                        PublicMasterHostname (Spec instance) +:+ nl)) ;;
      WriteString f nl ;;
      WriteString f ("[masters]" +:+ nl) ;;
      let* err := WriteString f ("127.0.0.1 ansible_connection=local" +:+ nl) in
      match err with
      | Some err => ret ("", Some err)
      | None => ret (inventoryFile, None)
      end
  end.

Definition runPlaybook (inventoryFile configFile : string) : M (option error) :=
  let args := ["-i"; inventoryFile; PlaybookFile; "-vvv"] in
  let env := ["KUBECONFIG=" +:+ configFile] in
  runCommand "ansible-playbook" args env args.

(** [runPlaybookWithSetup].  A [defer] runs when the function returns, the
    last one registered first; a return that comes before a [defer]
    statement leaves that removal out. *)
Definition runPlaybookWithSetup (namespace : string) (instance : KWebUI)
    (action : string) : M (Result * option error) :=
  let* login := loginClient namespace in
  let configFile := fst login in
  match snd login with
  | Some err => ret (Result_zero, Some err)
  | None =>
      let* inventory := generateInventory instance namespace action in
      let inventoryFile := fst inventory in
      match snd inventory with
      | Some err =>
          removeFile configFile ;;
          ret (Result_zero, Some err)
      | None =>
          let* err := runPlaybook inventoryFile configFile in
          removeFile inventoryFile ;;
          removeFile configFile ;;
          ret (Result_zero, err)
      end
  end.

(** ** The decision engine *)

Definition msgProvisionFailed : string :=
  "Failed to provision Kubevirt Web UI. See operator's log for more details.".
Definition msgDeprovisionFailed : string :=
  "Failed to deprovision Kubevirt Web UI. See operator's log for more details.".

Definition freshProvision (r : ReconcileKWebUI) (request : Request)
    (instance : KWebUI) : M (Result * option error) :=
  if decide (Version (Spec instance) = "") then
    updateStatus r request PhaseNoDeployment "" ;;
    ret (Result_zero, None)
  else
    updateStatus r request PhaseFreshProvision
      ("Target version: " +:+ Version (Spec instance)) ;;
    let* run := runPlaybookWithSetup (ReqNamespace request) instance "provision" in
    let res := fst run in
    let err := snd run in
    match err with
    | None =>
        setOwnerReference r request instance ;;
        updateStatus r request PhaseProvisioned "Provision finished."
    | Some _ =>
        updateStatus r request PhaseProvisionFailed msgProvisionFailed
    end ;;
    ret (res, err).

Definition deprovision (r : ReconcileKWebUI) (request : Request)
    (instance : KWebUI) : M (Result * option error) :=
  updateStatus r request PhaseDeprovision "" ;;
  let* run := runPlaybookWithSetup (ReqNamespace request) instance "deprovision" in
  let res := fst run in
  let err := snd run in
  match err with
  | None => updateStatus r request PhaseDeprovisioned "Deprovision finished."
  | Some _ =>
      updateStatus r request PhaseDeprovisionFailed msgDeprovisionFailed
  end ;;
  ret (res, err).

(** The loop over the containers of [reconcileExistingDeployment]: the
    version of the first container named [WebUIContainerName], [inl] for the
    [return] inside the loop, and the empty version when no container has
    that name. *)
Fixpoint existingVersionOf (containers : list Container) : error + string :=
  match containers with
  | [] => inr ""
  | container :: rest =>
      if decide (Name container = WebUIContainerName) then
        let existingVersion := afterLast (Image container) ":" in
        let existingVersion := strings.TrimPrefix existingVersion "v" in
        if decide (existingVersion = "") then
          inl (ErrOther "failed to read existing image tag")
        else inr existingVersion
      else existingVersionOf rest
  end.

Definition reconcileExistingDeployment (r : ReconcileKWebUI) (request : Request)
    (instance : KWebUI) (deployment : Deployment) : M (Result * option error) :=
  match existingVersionOf (Containers deployment) with
  | inl err => ret (Result_zero, Some err)
  | inr existingVersion =>
      if decide (existingVersion = "") then
        updateStatus r request PhaseOtherError "Can not read deployed container version." ;;
        ret (Result_zero, None)
      else if decide (Version (Spec instance) = existingVersion) then
        let msg := "Existing version conform the requested one: " +:+ existingVersion +:+
                   ". Nothing to do." in
        updateStatus r request PhaseProvisioned msg ;;
        ret (Result_zero, None)
      else if decide (Version (Spec instance) = "") then
        deprovision r request instance
      else
        let* dep := deprovision r request instance in
        match snd dep with
        | Some err => ret (Result_zero, Some err)
        | None => freshProvision r request instance
        end
  end.

Definition Reconcile (r : ReconcileKWebUI) (request : Request)
    : M (Result * option error) :=
  let* got := client_Get_KWebUI (Request_NamespacedName request) in
  match got with
  | inl err =>
      if IsNotFound err then ret (Result_zero, None)
      else ret (Result_zero, Some err)
  | inr instance =>
      let* got := client_Get_Deployment (ReqNamespace request, "console") in
      match got with
      | inl err =>
          if IsNotFound err then freshProvision r request instance
          else
            updateStatus r request PhaseOtherError
              "Failed to retrieve kubevirt-web-ui Deployment object." ;;
            ret (Result_zero, Some err)
      | inr deployment => reconcileExistingDeployment r request instance deployment
      end
  end.

(** ** Lines of text *)

(** [strings.Split(s, sep)] for a non-empty [sep]: [cur] is the field being
    read, [skip] what is left to pass over of a separator just found. *)
Fixpoint Split_from (skip : nat) (cur s sep : string) : list string :=
  match s with
  | EmptyString => [cur]
  | String a rest =>
      match skip with
      | S k => Split_from k cur rest sep
      | O =>
          if strings.HasPrefix s sep
          then cur :: Split_from (String.length sep - 1) "" rest sep
          else Split_from O (cur +:+ String a "") rest sep
      end
  end.

Definition Split (s sep : string) : list string := Split_from 0 "" s sep.

(** The newline, and whether a character occurs in a string. *)
Definition newline : ascii := ascii_of_nat 10.

Fixpoint hasChar (c : ascii) (s : string) : bool :=
  match s with
  | EmptyString => false
  | String a rest => if Ascii.ascii_dec c a then true else hasChar c rest
  end.

(** A value without a newline stays on the line it is written to; the
    values that go into the inventory are the fields of the spec, the
    namespace and the action. *)
Definition oneLine (s : string) : Prop := hasChar newline s = false.

Definition oneLineInputs (spec : KWebUISpec) (namespace action : string) : Prop :=
  oneLine (Version spec) /\ oneLine (RegistryUrl spec) /\
  oneLine (RegistryNamespace spec) /\
  oneLine (OpenshiftMasterDefaultSubdomain spec) /\
  oneLine (PublicMasterHostname spec) /\
  oneLine namespace /\ oneLine action.

(** ** Vocabulary of the specification *)

(** The deployed artifact's matching container: the first one named
    [WebUIContainerName], where the loop of [reconcileExistingDeployment]
    stops. *)
Definition matchingContainer (containers : list Container) : option Container :=
  List.find (fun c => bool_decide (Name c = WebUIContainerName)) containers.

(** The tag of an image reference, and the tag after normalization. *)
Definition imageTag (c : Container) : string := afterLast (Image c) ":".
Definition normalizedTag (c : Container) : string :=
  strings.TrimPrefix (imageTag c) "v".

(** The object a status write for [request] would land on in [w]: the stored
    resource, unless the fetch or the update is scripted to fail. *)
Definition landing (request : Request) (w : World) : option KWebUI :=
  match api_faults w with
  | Some _ :: _ => None
  | _ :: Some _ :: _ => None
  | _ => kwebuis (sys w) !! Request_NamespacedName request
  end.

(** What is stored after a status write. *)
Definition statusSys (request : Request) (phase msg : string) (w : World) : System :=
  match landing request w with
  | Some o =>
      set_kwebuis (<[Request_NamespacedName request := set_status phase msg o]>
                     (kwebuis (sys w))) (sys w)
  | None => sys w
  end.

(** The client calls of one status write. *)
Definition statusCalls (request : Request) (phase msg : string) (w : World)
    : list Event :=
  let key := Request_NamespacedName request in
  match fst (client_Get_KWebUI key w) with
  | inl _ => [ApiGet KindKWebUI key]
  | inr o => [ApiGet KindKWebUI key;
              ApiUpdate KindKWebUI key (ObjKWebUI (set_status phase msg o))]
  end.

(** The inventory in the words of the specification (section 6), one entry
    per line: the fixed lines, the action and the four settings with their
    defaults; then the three optional lines; then the fixed end.  These
    definitions are what [generateInventory] is compared with. *)
Definition spec_headerLines (spec : KWebUISpec) (namespace action : string)
    : list string :=
  ["[OSEv3:children]";
   "masters";
   "";
   "[OSEv3:vars]";
   "platform=openshift";
   "apb_action=" +:+ action;
   "registry_url=" +:+
     (if decide (RegistryUrl spec = "") then "quay.io" else RegistryUrl spec);
   "registry_namespace=" +:+
     (if decide (RegistryNamespace spec = "") then "kubevirt" else RegistryNamespace spec);
   "docker_tag=" +:+
     (if decide (Version spec = "") then "v1.4" else Version spec);
   "kubevirt_web_ui_namespace=" +:+
     (if decide (namespace = "") then "kubevirt-web-ui" else namespace)].

Definition spec_optionalLines (spec : KWebUISpec) (action : string) : list string :=
  (if decide (action = "deprovision") then ["preserve_namespace=true"] else []) ++
  (if decide (OpenshiftMasterDefaultSubdomain spec = "") then []
   else ["openshift_master_default_subdomain=" +:+ OpenshiftMasterDefaultSubdomain spec]) ++
  (if decide (PublicMasterHostname spec = "") then []
   else ["public_master_hostname=" +:+ PublicMasterHostname spec]).

Definition spec_footerLines : list string :=
  [""; "[masters]"; "127.0.0.1 ansible_connection=local"].

Definition spec_inventoryLines (spec : KWebUISpec) (namespace action : string)
    : list string :=
  spec_headerLines spec namespace action ++ spec_optionalLines spec action ++ spec_footerLines.

(** Every line ends with a newline. *)
Definition spec_inventoryText (spec : KWebUISpec) (namespace action : string) : string :=
  String.concat "" (map (fun line => line +:+ nl) (spec_inventoryLines spec namespace action)).

(** What is left of the scripted client faults after a status write. *)
Definition statusFaults (request : Request) (w : World) : list (option error) :=
  match fst (client_Get_KWebUI (Request_NamespacedName request) w) with
  | inl _ => tail (api_faults w)
  | inr _ => tail (tail (api_faults w))
  end.

(** What a computation adds to the record of calls: events that all
    satisfy [P]. *)
Definition emits {A} (P : Event -> Prop) (m : M A) : Prop :=
  forall w, exists evs, trace (snd (m w)) = trace w ++ evs /\ Forall P evs.

(** The events of an attempt to provision: a write that puts the line
    [apb_action=provision] into a file, be it the action line or part of a
    field value, and a status write of a provision phase. *)
Definition provisioning (e : Event) : Prop :=
  match e with
  | FsWrite _ data => In "apb_action=provision" (Split data nl)
  | ApiUpdate _ _ (ObjKWebUI o) =>
      Phase (Status o) = PhaseFreshProvision \/
      Phase (Status o) = PhaseProvisioned \/
      Phase (Status o) = PhaseProvisionFailed
  | _ => False
  end.

Definition not_a_removal (e : Event) : Prop := forall p, e <> FsRemove p.

(** No file-system fault is scripted. *)
Definition quiet (w : World) : Prop := Forall (fun f => f = None) (fs_faults w).

(** ** The log of a child's output

    [runCommand] starts [pipeToLog] on each pipe of the child.  What the
    two write does not touch the [World]; they are modelled on their own,
    as the log entries they make. *)

(** The error of a [Read] as the loop of [pipeToLog] tells errors apart.
    It compares the error value with [io.EOF] itself, not its text: a read
    ends with [io.EOF], the one value of package [io], or fails with some
    other error value, whatever that one prints. *)
Inductive ReadError :=
| io_EOF
| ReadFailed (err : error).

Inductive LogEntry :=
| LogInfo (msg : string)
| LogError (err : error) (msg : string).

(** [logPerLine]: one [log.Info] per field of [out] between newlines. *)
Definition logPerLine (header out : string) : list LogEntry :=
  map (fun line => LogInfo (header +:+ ": " +:+ line)) (Split out nl).

(** [pipeToLog].  The pipe is the results of its successive [Read]s into
    the 1024-byte buffer, the bytes read and the error; a pipe read to its
    end returns no bytes and [io.EOF]. *)
Fixpoint pipeToLog (pipe : list (string * option ReadError)) (name : string)
    : list LogEntry :=
  match pipe with
  | [] => []
  | (data, err) :: rest =>
      (if decide (strings.len data > 0) then logPerLine name data else []) ++
      match err with
      | Some io_EOF => []
      | Some (ReadFailed err) => [LogError err (name +:+ " read error")]
      | None => pipeToLog rest name
      end
  end.

(** How many times a character occurs in a string. *)
Fixpoint countChar (c : ascii) (s : string) : nat :=
  match s with
  | EmptyString => O
  | String a rest => (if Ascii.ascii_dec c a then 1 else 0) + countChar c rest
  end.

Definition isInfo (e : LogEntry) : bool :=
  match e with
  | LogInfo _ => true
  | LogError _ _ => false
  end.

(** ** Vocabulary of the further properties *)

(** The client calls a pass for [request] has reason to make: fetches of
    the resource and of the console deployment of its namespace, updates of
    the resource. *)
Definition ownClientCall (request : Request) (e : Event) : Prop :=
  match e with
  | ApiGet k key =>
      (k = KindKWebUI /\ key = Request_NamespacedName request) \/
      (k = KindDeployment /\ key = (ReqNamespace request, "console"))
  | ApiUpdate k key (ObjKWebUI _) =>
      k = KindKWebUI /\ key = Request_NamespacedName request
  | ApiUpdate _ _ (ObjDeployment _) => False
  | _ => True
  end.

(** How the next child process ends: the error of [Start] or of [Wait]. *)
Definition exitOf (ps : list Process) : option error :=
  match ps with
  | [] => None
  | StartFails err :: _ => Some err
  | Runs _ exit :: _ => exit
  end.

(** An event that is not a run of the playbook. *)
Definition not_the_playbook (e : Event) : Prop :=
  match e with
  | Exec i => inv_cmd i = "oc"
  | _ => True
  end.

(** An upper-case hexadecimal digit, and a property of every character of
    a string. *)
Definition isUpperHex (a : ascii) : bool :=
  let n := N_of_ascii a in
  ((48 <=? n) && (n <=? 57) || (65 <=? n) && (n <=? 70))%N.

Fixpoint allChars (P : ascii -> bool) (s : string) : bool :=
  match s with
  | EmptyString => true
  | String a rest => P a && allChars P rest
  end.

(** Five bytes as [rand.Read] fills them into [b]. *)
Definition fiveBytes (b : list N) : Prop :=
  length b = 5%nat /\ Forall (fun x => (x < 256)%N) b.

(** [emits], with a property of the value computed as well. *)
Definition emitsR {A} (P : Event -> Prop) (Q : A -> Prop) (m : M A) : Prop :=
  forall w, exists evs,
    trace (snd (m w)) = trace w ++ evs /\ Forall P evs /\ Q (fst (m w)).

(** The files and child processes that are a pass's own: inventory files
    are created and written, inventory and kubeconfig files removed, all
    named after the two patterns; the children are [oc] and
    [ansible-playbook], run with [KUBECONFIG] set, last in the environment,
    to a kubeconfig file of that name. *)
Definition ownFilesAndChildren (e : Event) : Prop :=
  match e with
  | FsCreate p => exists s, p = InventoryFilePattern s
  | FsWrite p _ => exists s, p = InventoryFilePattern s
  | FsRemove p => exists s, p = InventoryFilePattern s \/ p = ConfigFilePattern s
  | Exec i =>
      (inv_cmd i = "oc" \/ inv_cmd i = "ansible-playbook") /\
      exists s, last (inv_env i) = Some ("KUBECONFIG=" +:+ ConfigFilePattern s)
  | _ => True
  end.

(** ** A concrete cluster to run the controller on *)

Module Scenario.

Definition ns : string := "kubevirt-web-ui".
Definition request : Request := mkRequest ns "kubevirt-web-ui".
Definition r : ReconcileKWebUI := mkReconcileKWebUI [KindKWebUI; KindDeployment].

Definition cr (version : string) : KWebUI :=
  mkKWebUI "uid-1" (mkKWebUISpec version "" "" "" "") (mkKWebUIStatus "" "").

Definition console (image : string) : Deployment :=
  mkDeployment [] [mkContainer "console" image].

(** The path an [oc] or [ansible-playbook] child finds in [KUBECONFIG]. *)
Definition kubeconfig_of (i : Invocation) : option string :=
  match List.filter (fun e => strings.HasPrefix e "KUBECONFIG=") (inv_env i) with
  | [] => None
  | e :: _ => Some (strings.TrimPrefix e "KUBECONFIG=")
  end.

(** [oc login] writes the kubeconfig file; [oc project] changes nothing
    that is modelled. *)
Definition oc_login : Process :=
  Runs (fun i s =>
          match kubeconfig_of i with
          | Some p => set_files (<[p := "kubeconfig"]> (files s)) s
          | None => s
          end) None.
Definition oc_project : Process := Runs (fun _ s => s) None.
Definition oc_project_fails : Process :=
  Runs (fun _ s => s) (Some (ErrOther "exit status 1")).

(** The playbook creates or deletes the [console] deployment. *)
Definition playbook_provisions (tag : string) : Process :=
  Runs (fun _ s =>
          set_deployments
            (<[(ns, "console") := console ("quay.io/kubevirt/kubevirt-web-ui:" +:+ tag)]>
               (deployments s)) s) None.
Definition playbook_deprovisions : Process :=
  Runs (fun _ s => set_deployments (delete (ns, "console") (deployments s)) s) None.
Definition playbook_fails : Process :=
  Runs (fun _ s => s) (Some (ErrOther "exit status 2")).

Definition config : RestConfig :=
  mkRestConfig "https://10.0.0.1:443" "/run/secrets/ca.crt" "token".

(** A cluster holding the resource with the given desired version and,
    when [image] is given, a [console] deployment running it. *)
Definition cluster (version : string) (image : option string) : System :=
  mkSystem {[ (ns, "kubevirt-web-ui") := cr version ]}
           (match image with
            | Some i => {[ (ns, "console") := console i ]}
            | None => ∅
            end)
           ∅.

Definition world (s : System) (api fs : list (option error))
    (ps : list Process) : World :=
  mkWorld s (inr config) ["PATH=/usr/bin"] api fs
          [Some [1; 2; 3; 4; 5]%N; Some [6; 7; 8; 9; 10]%N;
           Some [11; 12; 13; 14; 15]%N; Some [16; 17; 18; 19; 20]%N]
          ps [].

Definition storedPhase (w : World) : option string :=
  (fun o => Phase (Status o)) <$> kwebuis (sys w) !! (ns, "kubevirt-web-ui").

Definition playbookRuns (w : World) : nat :=
  length (List.filter (fun e => match e with
                                | Exec i => bool_decide (inv_cmd i = "ansible-playbook")
                                | _ => false
                                end) (trace w)).

(** The phases of the status updates made, in the order made. *)
Definition statusPhases (w : World) : list string :=
  omap (fun e => match e with
                 | ApiUpdate _ _ (ObjKWebUI o) => Some (Phase (Status o))
                 | _ => None
                 end) (trace w).

(** The lines of the file at [path]: what lies between its newlines. *)
Definition linesOfFile (path : string) (w : World) : list string :=
  match files (sys w) !! path with
  | Some content => Split content nl
  | None => []
  end.

(** How often the pass created and removed [path]. *)
Definition creations (path : string) (w : World) : nat :=
  length (List.filter (fun e => match e with
                                | FsCreate p => bool_decide (p = path)
                                | _ => false
                                end) (trace w)).
Definition removals (path : string) (w : World) : nat :=
  length (List.filter (fun e => match e with
                                | FsRemove p => bool_decide (p = path)
                                | _ => false
                                end) (trace w)).

End Scenario.

(** * Properties *)

(** Closed facts about concrete clusters are settled by evaluation. *)
Ltac run := vm_compute; reflexivity.

(** Membership in a list that evaluates to its elements. *)
Ltac in_list := vm_compute; repeat first [left; reflexivity | right].

(** ** The helpers on concrete strings *)

Example afterLast_image :
  afterLast "quay.io/kubevirt/kubevirt-web-ui:v1.4" ":" = "v1.4".
Proof. reflexivity. Qed.

Example afterLast_no_colon : afterLast "kubevirt-web-ui" ":" = "".
Proof. reflexivity. Qed.

Example afterLast_trailing_colon : afterLast "kubevirt-web-ui:" ":" = "".
Proof. reflexivity. Qed.

Example afterLast_registry_port :
  afterLast "registry:5000/kubevirt-web-ui" ":" = "5000/kubevirt-web-ui".
Proof. reflexivity. Qed.

Example Sprintf_X_bytes : Sprintf_X [0; 171; 9; 255; 16]%N = "00AB09FF10".
Proof. reflexivity. Qed.

(** ** Strings and lines *)

Lemma append_assoc (a b c : string) : (a +:+ b) +:+ c = a +:+ (b +:+ c).
Proof.
  induction a as [|x a IH]; [reflexivity|].
  change (String x ((a +:+ b) +:+ c) = String x (a +:+ (b +:+ c))).
  now rewrite IH.
Qed.

Lemma append_nil_r (a : string) : a +:+ "" = a.
Proof.
  induction a as [|x a IH]; [reflexivity|].
  change (String x (a +:+ "") = String x a). now rewrite IH.
Qed.

Lemma HasPrefix_char c a rest :
  strings.HasPrefix (String a rest) (String c "") =
  if Ascii.ascii_dec c a then true else false.
Proof.
  unfold strings.HasPrefix. cbn [String.prefix].
  destruct (Ascii.ascii_dec c a); [now destruct rest | reflexivity].
Qed.

Lemma LastIndex_at_absent c s pos :
  hasChar c s = false -> strings.LastIndex_at pos s (String c "") = -1.
Proof.
  revert pos. induction s as [|a rest IH]; intros pos H.
  - reflexivity.
  - cbn [hasChar] in H. cbn [strings.LastIndex_at].
    rewrite HasPrefix_char.
    destruct (Ascii.ascii_dec c a); [discriminate|].
    rewrite (IH _ H). reflexivity.
Qed.

Lemma LastIndex_at_present c pre tag pos :
  0 <= pos -> hasChar c tag = false ->
  strings.LastIndex_at pos (pre +:+ String c tag) (String c "") =
    pos + strings.len pre.
Proof.
  revert pos. induction pre as [|a pre IH]; intros pos Hpos Htag.
  - change ("" +:+ String c tag) with (String c tag).
    cbn [strings.LastIndex_at]. rewrite HasPrefix_char.
    rewrite (LastIndex_at_absent _ _ _ Htag).
    destruct (Ascii.ascii_dec c c); [|congruence].
    unfold strings.len. cbn. lia.
  - change (String a pre +:+ String c tag) with (String a (pre +:+ String c tag)).
    cbn [strings.LastIndex_at]. rewrite IH by (try lia; assumption).
    unfold strings.len. cbn [String.length].
    destruct (0 <=? pos + 1 + Z.of_nat (String.length pre)) eqn:E; [lia|].
    apply Z.leb_gt in E. lia.
Qed.

Lemma length_append (a b : string) :
  String.length (a +:+ b) = (String.length a + String.length b)%nat.
Proof.
  induction a as [|x a IH]; [reflexivity|].
  change (String x a +:+ b) with (String x (a +:+ b)). cbn [String.length].
  now rewrite IH.
Qed.

Lemma slice_from_append (a b : string) :
  strings.slice_from (String.length a) (a +:+ b) = b.
Proof.
  induction a as [|x a IH]; [now destruct b|].
  change (String x a +:+ b) with (String x (a +:+ b)). exact IH.
Qed.

(** Every string either lacks the character, or splits at its last
    occurrence. *)
Lemma split_at_last c s :
  hasChar c s = false \/
  exists pre tag, s = pre +:+ String c tag /\ hasChar c tag = false.
Proof.
  induction s as [|a rest IH]; [now left|].
  destruct IH as [H|(pre & tag & -> & H)].
  - cbn [hasChar]. destruct (Ascii.ascii_dec c a) as [<-|Hn]; [|now left].
    right. exists "", rest. now split.
  - right. exists (String a pre), tag. now split.
Qed.

Lemma afterLast_append (c : ascii) (repo tag : string) :
  hasChar c tag = false ->
  afterLast (repo +:+ String c tag) (String c "") = tag.
Proof.
  intros Htag. unfold afterLast, strings.LastIndex.
  rewrite LastIndex_at_present by (try lia; assumption).
  unfold strings.len. rewrite length_append. cbn [String.length].
  destruct (decide (0 + Z.of_nat (String.length repo) = -1)) as [E|_]; [lia|].
  cbv zeta.
  destruct (decide _) as [Hge|Hlt].
  - destruct tag; [reflexivity | cbn [String.length] in Hge; lia].
  - replace (Z.to_nat (0 + Z.of_nat (String.length repo) + Z.of_nat 1))
      with (String.length (repo +:+ String c "")).
    + rewrite <- (slice_from_append (repo +:+ String c "") tag) at 2.
      now rewrite append_assoc.
    + rewrite length_append. cbn [String.length]. lia.
Qed.

Lemma hasChar_after_sep c pre tag : hasChar c (pre +:+ String c tag) = true.
Proof.
  induction pre as [|a pre IH].
  - change ("" +:+ String c tag) with (String c tag). cbn [hasChar].
    destruct (Ascii.ascii_dec c c); [reflexivity | congruence].
  - change (String a pre +:+ String c tag) with (String a (pre +:+ String c tag)).
    cbn [hasChar]. now destruct (Ascii.ascii_dec c a).
Qed.

Lemma Split_from_nl_cons cur a rest :
  Split_from 0 cur (String a rest) nl =
  if Ascii.ascii_dec newline a
  then cur :: Split_from 0 "" rest nl
  else Split_from 0 (cur +:+ String a "") rest nl.
Proof.
  cbn [Split_from]. change nl with (String newline "").
  rewrite HasPrefix_char. now destruct (Ascii.ascii_dec newline a).
Qed.

Lemma Split_from_nl_length cur s :
  length (Split_from 0 cur s nl) = S (countChar newline s).
Proof.
  revert cur. induction s as [|a rest IH]; intros cur; [reflexivity|].
  rewrite Split_from_nl_cons. cbn [countChar].
  destruct (Ascii.ascii_dec newline a); cbn [length]; now rewrite IH.
Qed.

Lemma Split_from_nl_concat cur s :
  String.concat nl (Split_from 0 cur s nl) = cur +:+ s.
Proof.
  revert cur. induction s as [|a rest IH]; intros cur.
  - cbn. now rewrite append_nil_r.
  - rewrite Split_from_nl_cons.
    destruct (Ascii.ascii_dec newline a) as [<-|Hn].
    + pose proof (Split_from_nl_length "" rest) as Hl.
      specialize (IH "").
      destruct (Split_from 0 "" rest nl) as [|x l]; [discriminate Hl|].
      change (String.concat nl (cur :: x :: l))
        with (cur +:+ nl +:+ String.concat nl (x :: l)).
      rewrite IH. reflexivity.
    + rewrite IH. apply append_assoc.
Qed.

Lemma hasChar_append c (a b : string) :
  hasChar c (a +:+ b) = hasChar c a || hasChar c b.
Proof.
  induction a as [|x a IH]; [reflexivity|].
  change (String x a +:+ b) with (String x (a +:+ b)). cbn [hasChar].
  now destruct (Ascii.ascii_dec c x).
Qed.

Lemma Split_from_nl_fields cur s :
  hasChar newline cur = false ->
  Forall (fun line => hasChar newline line = false) (Split_from 0 cur s nl).
Proof.
  revert cur. induction s as [|a rest IH]; intros cur Hcur.
  - now constructor.
  - rewrite Split_from_nl_cons.
    destruct (Ascii.ascii_dec newline a) as [<-|Hn].
    + constructor; [exact Hcur | now apply IH].
    + apply IH. rewrite hasChar_append, Hcur. cbn [hasChar orb].
      now destruct (Ascii.ascii_dec newline a).
Qed.

(** A line without newline that ends in a newline is one field. *)
Lemma Split_from_line cur line rest :
  oneLine line ->
  Split_from 0 cur (line +:+ nl +:+ rest) nl =
    (cur +:+ line) :: Split_from 0 "" rest nl.
Proof.
  unfold oneLine. revert cur. induction line as [|a line IH]; intros cur H.
  - change ("" +:+ nl +:+ rest) with (String newline rest).
    rewrite Split_from_nl_cons, append_nil_r.
    destruct (Ascii.ascii_dec newline newline); [reflexivity | congruence].
  - cbn [hasChar] in H.
    change (String a line +:+ nl +:+ rest) with (String a (line +:+ nl +:+ rest)).
    rewrite Split_from_nl_cons.
    destruct (Ascii.ascii_dec newline a); [discriminate H|].
    rewrite IH by exact H. now rewrite append_assoc.
Qed.

Lemma concat_empty_sep x (l : list string) :
  String.concat "" (x :: l) = x +:+ String.concat "" l.
Proof.
  destruct l; [symmetry; apply append_nil_r | reflexivity].
Qed.

(** A text made of lines that each end in a newline splits into these
    lines, and the empty field after the last newline. *)
Lemma Split_text_of_lines lines :
  Forall oneLine lines ->
  Split (String.concat "" (map (fun line => line +:+ nl) lines)) nl = lines ++ [""].
Proof.
  unfold Split. induction 1 as [|x l Hx _ IH]; [reflexivity|].
  cbn [map]. rewrite concat_empty_sep, append_assoc.
  rewrite Split_from_line by exact Hx. now rewrite IH.
Qed.

(** What one write of a setting puts on lines: the setting, and nothing
    after its newline. *)
Lemma line_of_write prefix v x :
  oneLine prefix -> oneLine v ->
  In x (Split (prefix +:+ v +:+ nl) nl) -> x = prefix +:+ v \/ x = "".
Proof.
  intros Hp Hv. unfold Split.
  rewrite <- append_assoc, <- (append_nil_r nl), Split_from_line.
  - cbn [Split_from In]. intuition.
  - unfold oneLine in *. now rewrite hasChar_append, Hp, Hv.
Qed.

Lemma oneLine_def s d : oneLine s -> oneLine d -> oneLine (def s d).
Proof. intros Hs Hd. unfold def. now destruct (decide (s = "")). Qed.

(** ** Running monadic code *)

Lemma bind_run {A B} (m : M A) (k : A -> M B) w a w' :
  m w = (a, w') -> bind m k w = k a w'.
Proof. intros E. unfold bind. now rewrite E. Qed.

Lemma bind_proj {A B} (m : M A) (k : A -> M B) w :
  bind m k w = k (fst (m w)) (snd (m w)).
Proof. unfold bind. now destruct (m w). Qed.

Lemma seq_ret {A} (m : M unit) (x : A) w :
  (m ;; ret x) w = (x, snd (m w)).
Proof. now rewrite bind_proj. Qed.

(** ** Provision and deprovision, step by step *)

Lemma runPlaybookWithSetup_result namespace instance action w :
  fst (fst (runPlaybookWithSetup namespace instance action w)) = Result_zero.
Proof.
  unfold runPlaybookWithSetup. rewrite bind_proj. cbv zeta.
  destruct (snd (fst (loginClient namespace w))); [reflexivity|].
  rewrite bind_proj.
  destruct (snd (fst (generateInventory _ _ _ _))).
  - now rewrite !bind_proj.
  - now rewrite !bind_proj.
Qed.

(** [freshProvision] for a wanted version, step by step. *)
Lemma freshProvision_run r request instance w :
  Version (Spec instance) <> "" ->
  freshProvision r request instance w =
  let w1 := snd (updateStatus r request PhaseFreshProvision
                   ("Target version: " +:+ Version (Spec instance)) w) in
  let run := runPlaybookWithSetup (ReqNamespace request) instance "provision" w1 in
  match snd (fst run) with
  | None =>
      ((Result_zero, None),
       snd (updateStatus r request PhaseProvisioned "Provision finished."
              (snd (setOwnerReference r request instance (snd run)))))
  | Some err =>
      ((Result_zero, Some err),
       snd (updateStatus r request PhaseProvisionFailed msgProvisionFailed (snd run)))
  end.
Proof.
  intros Hv. unfold freshProvision.
  destruct (decide (Version (Spec instance) = "")) as [Hn|_]; [congruence|].
  rewrite bind_proj, bind_proj. cbv zeta.
  rewrite runPlaybookWithSetup_result.
  destruct (snd (fst (runPlaybookWithSetup _ _ _ _))) as [err|].
  - apply seq_ret.
  - rewrite bind_proj, bind_proj. reflexivity.
Qed.

(** [deprovision], step by step. *)
Lemma deprovision_run r request instance w :
  deprovision r request instance w =
  let w1 := snd (updateStatus r request PhaseDeprovision "" w) in
  let run := runPlaybookWithSetup (ReqNamespace request) instance "deprovision" w1 in
  match snd (fst run) with
  | None =>
      ((Result_zero, None),
       snd (updateStatus r request PhaseDeprovisioned "Deprovision finished." (snd run)))
  | Some err =>
      ((Result_zero, Some err),
       snd (updateStatus r request PhaseDeprovisionFailed msgDeprovisionFailed (snd run)))
  end.
Proof.
  unfold deprovision.
  rewrite bind_proj, bind_proj. cbv zeta.
  rewrite runPlaybookWithSetup_result.
  destruct (snd (fst (runPlaybookWithSetup _ _ _ _))) as [err|]; apply seq_ret.
Qed.

(** ** The client and the status reporter *)

Ltac unfold_client :=
  unfold client_Get_KWebUI, client_Get_Deployment, client_Update,
         bind, ret, record, api_fault, get_sys, put_sys, pop_fault, emit,
         set_sys, set_api_faults in *.

Ltac project :=
  cbn [sys api_faults trace fst snd inClusterConfig environ fs_faults
       entropy procs kindOf tail].

(** One status write, in full. *)
Lemma updateStatus_run r request phase msg w :
  updateStatus r request phase msg w =
  (tt, mkWorld (statusSys request phase msg w) (inClusterConfig w) (environ w)
               (statusFaults request w) (fs_faults w) (entropy w) (procs w)
               (trace w ++ statusCalls request phase msg w)).
Proof.
  unfold updateStatus, statusSys, statusFaults, statusCalls, landing.
  destruct w as [s icc env af ff en ps tr].
  unfold_client.
  destruct af as [|[e|] [|[e'|] af]]; project;
    destruct (kwebuis s !! Request_NamespacedName request) as [o|] eqn:E;
    project; rewrite ?E; project; rewrite <- ?app_assoc; reflexivity.
Qed.

Lemma client_Get_KWebUI_stored key w o :
  fst (client_Get_KWebUI key w) = inr o -> kwebuis (sys w) !! key = Some o.
Proof.
  destruct w as [s icc env af ff en ps tr]. unfold_client.
  destruct af as [|[e|] af]; project;
    destruct (kwebuis s !! key) as [o'|] eqn:E; project;
    intros H; congruence.
Qed.

Lemma client_Get_Deployment_run key w :
  snd (client_Get_Deployment key w) =
  mkWorld (sys w) (inClusterConfig w) (environ w) (tail (api_faults w))
          (fs_faults w) (entropy w) (procs w)
          (trace w ++ [ApiGet KindDeployment key]).
Proof.
  destruct w as [s icc env af ff en ps tr]. unfold_client.
  destruct af as [|[e|] af]; project;
    destruct (deployments s !! key) as [d|] eqn:E; project; reflexivity.
Qed.

Lemma statusSys_deployments request phase msg w :
  deployments (statusSys request phase msg w) = deployments (sys w).
Proof. unfold statusSys. now destruct (landing request w). Qed.

Lemma statusSys_files request phase msg w :
  files (statusSys request phase msg w) = files (sys w).
Proof. unfold statusSys. now destruct (landing request w). Qed.

Lemma statusSys_other request phase msg w k :
  k <> Request_NamespacedName request ->
  kwebuis (statusSys request phase msg w) !! k = kwebuis (sys w) !! k.
Proof.
  intros Hk. unfold statusSys. destruct (landing request w); [|reflexivity].
  cbn [kwebuis set_kwebuis]. now apply lookup_insert_ne.
Qed.

Lemma statusSys_landed request phase msg w o :
  landing request w = Some o ->
  kwebuis (statusSys request phase msg w) !! Request_NamespacedName request =
    Some (set_status phase msg o).
Proof.
  intros H. unfold statusSys. rewrite H. cbn [kwebuis set_kwebuis].
  apply lookup_insert_eq.
Qed.

Lemma freshProvision_no_version r request instance w :
  Version (Spec instance) = "" ->
  freshProvision r request instance w =
    ((Result_zero, None), snd (updateStatus r request PhaseNoDeployment "" w)).
Proof.
  intros Hv. unfold freshProvision.
  destruct (decide (Version (Spec instance) = "")) as [_|Hn]; [|congruence].
  apply seq_ret.
Qed.

(** C8.  One status write: the resource is fetched by the request's
    identifier, and only then, when the fetch gave the stored object, an
    update follows that differs from what was fetched in the phase and the
    message alone.  Afterwards the store holds that object if neither call
    failed and is what it was otherwise; nothing but the resource under that
    identifier changes.  The write has no error result: a pass that does
    nothing but report (no deployment and none wanted) returns no error and
    no requeue whatever client faults are scripted, and the error a
    deprovision returns is the one of its workflow, the status writes
    around it adding none. *)
Theorem updateStatus_is_best_effort
    (r : ReconcileKWebUI) (request : Request) (phase msg : string) (w : World) :
  let key := Request_NamespacedName request in
  let w' := snd (updateStatus r request phase msg w) in
  trace w' = trace w ++
    match fst (client_Get_KWebUI key w) with
    | inl _ => [ApiGet KindKWebUI key]
    | inr o => [ApiGet KindKWebUI key;
                ApiUpdate KindKWebUI key
                  (ObjKWebUI (mkKWebUI (UID o) (Spec o) (mkKWebUIStatus phase msg)))]
    end /\
  match fst (client_Get_KWebUI key w) with
  | inl _ => True
  | inr o => kwebuis (sys w) !! key = Some o
  end /\
  sys w' =
    match landing request w with
    | Some o =>
        set_kwebuis (<[key := mkKWebUI (UID o) (Spec o) (mkKWebUIStatus phase msg)]>
                       (kwebuis (sys w))) (sys w)
    | None => sys w
    end /\
  deployments (sys w') = deployments (sys w) /\
  files (sys w') = files (sys w) /\
  (forall k, k <> key -> kwebuis (sys w') !! k = kwebuis (sys w) !! k) /\
  fst (updateStatus r request phase msg w) = tt /\
  (forall uid url rns sub host st,
     fst (freshProvision r request
            (mkKWebUI uid (mkKWebUISpec "" url rns sub host) st) w)
     = (mkResult false, None)) /\
  (forall instance,
     snd (fst (deprovision r request instance w)) =
     snd (fst (runPlaybookWithSetup (ReqNamespace request) instance "deprovision"
                 (snd (updateStatus r request PhaseDeprovision "" w))))).
Proof.
  intros key w'. subst w'. rewrite updateStatus_run. project.
  repeat split.
  - destruct (fst (client_Get_KWebUI key w)) as [e|o] eqn:E; [exact I|].
    now apply client_Get_KWebUI_stored.
  - apply statusSys_deployments.
  - apply statusSys_files.
  - intros k Hk. now apply statusSys_other.
  - intros. now rewrite freshProvision_no_version.
  - intros instance. rewrite deprovision_run. cbv zeta.
    now destruct (snd (fst (runPlaybookWithSetup _ _ _ _))).
Qed.

Lemma updateStatus_is_best_effort_witness :
  let w := Scenario.world (Scenario.cluster "1.4" None) [] [] [] in
  let w' := snd (updateStatus Scenario.r Scenario.request PhaseProvisioned "done" w) in
  ("kube-system", "other") <> Request_NamespacedName Scenario.request /\
  kwebuis (sys w') !! ("kube-system", "other") = kwebuis (sys w) !! ("kube-system", "other") /\
  Scenario.storedPhase w' = Some PhaseProvisioned.
Proof.
  intros w w'.
  destruct (updateStatus_is_best_effort Scenario.r Scenario.request
              PhaseProvisioned "done" w)
    as (_ & _ & Hsys & _ & _ & Hother & _ & _ & _).
  assert (Hk : ("kube-system", "other") <> Request_NamespacedName Scenario.request)
    by (vm_compute; discriminate).
  split; [exact Hk|]. split; [exact (Hother _ Hk)|].
  unfold Scenario.storedPhase. subst w'. rewrite Hsys. run.
Defined.

(** ** Reading the deployed version *)

Lemma existingVersionOf_matching containers :
  existingVersionOf containers =
  match matchingContainer containers with
  | None => inr ""
  | Some c =>
      if decide (normalizedTag c = "")
      then inl (ErrOther "failed to read existing image tag")
      else inr (normalizedTag c)
  end.
Proof.
  unfold matchingContainer.
  induction containers as [|c rest IH]; simpl; [reflexivity|].
  destruct (decide (Name c = WebUIContainerName)) as [Hn|Hn].
  - rewrite bool_decide_eq_true_2 by exact Hn. reflexivity.
  - rewrite bool_decide_eq_false_2 by exact Hn. exact IH.
Qed.

Lemma matchingContainer_None containers :
  matchingContainer containers = None <->
  Forall (fun c => Name c <> WebUIContainerName) containers.
Proof.
  unfold matchingContainer. split.
  - induction containers as [|c rest IH]; simpl; intros H; [constructor|].
    destruct (bool_decide (Name c = WebUIContainerName)) eqn:E; [discriminate|].
    constructor; [now apply bool_decide_eq_false in E | auto].
  - induction 1 as [|c rest Hc _ IH]; simpl; [reflexivity|].
    rewrite bool_decide_eq_false_2 by exact Hc. exact IH.
Qed.

(** The only tag that is there before normalization and gone after it. *)
Lemma TrimPrefix_v_empty tag :
  tag <> "" -> strings.TrimPrefix tag "v" = "" -> tag = "v".
Proof.
  intros Hne H. unfold strings.TrimPrefix, strings.HasPrefix in H.
  destruct tag as [|a rest]; [congruence|].
  cbn [String.prefix String.length strings.slice_from] in H.
  destruct (Ascii.ascii_dec "v" a) as [<-|Hd].
  - destruct rest; [reflexivity | discriminate].
  - discriminate.
Qed.

(** C7.  When the matching container's image carries a tag that is empty
    once the leading "v" is stripped (the tag is then exactly "v"), the pass
    over the existing deployment returns the error "failed to read existing
    image tag" and leaves the world as it found it: no client call is made,
    so no status is written. *)
Theorem empty_normalized_tag_forces_retry
    (r : ReconcileKWebUI) (request : Request) (instance : KWebUI)
    (deployment : Deployment) (c : Container) (w : World) :
  matchingContainer (Containers deployment) = Some c ->
  imageTag c <> "" ->
  normalizedTag c = "" ->
  imageTag c = "v" /\
  reconcileExistingDeployment r request instance deployment w =
    ((Result_zero, Some (ErrOther "failed to read existing image tag")), w).
Proof.
  intros Hc Htag Hnorm. split.
  - now apply TrimPrefix_v_empty.
  - unfold reconcileExistingDeployment.
    rewrite existingVersionOf_matching, Hc, Hnorm. reflexivity.
Qed.

Lemma empty_normalized_tag_forces_retry_witness :
  let c := mkContainer "console" "quay.io/kubevirt/kubevirt-web-ui:v" in
  let d := mkDeployment [] [c] in
  let w := Scenario.world
             (Scenario.cluster "1.4" (Some "quay.io/kubevirt/kubevirt-web-ui:v"))
             [] [] [] in
  imageTag c = "v" /\
  reconcileExistingDeployment Scenario.r Scenario.request (Scenario.cr "1.4") d w =
    ((Result_zero, Some (ErrOther "failed to read existing image tag")), w).
Proof.
  intros c d w.
  apply (empty_normalized_tag_forces_retry Scenario.r Scenario.request
           (Scenario.cr "1.4") d c w).
  - reflexivity.
  - intros H; vm_compute in H; discriminate H.
  - run.
Defined.

(** An image reference has no tag to read when nothing follows its last
    colon: it has no colon at all, or it ends in one. *)
Lemma afterLast_empty c value :
  afterLast value (String c "") = "" <->
  hasChar c value = false \/ exists pre, value = pre +:+ String c "".
Proof.
  destruct (split_at_last c value) as [H|(pre & tag & E & H)].
  - split; [now left | intros _].
    unfold afterLast, strings.LastIndex. now rewrite LastIndex_at_absent.
  - split.
    + intros Ha. right. exists pre.
      rewrite E, afterLast_append in Ha by exact H. now subst tag.
    + intros [Hn|[pre' E']].
      * rewrite E, hasChar_after_sep in Hn. discriminate Hn.
      * rewrite E'. now apply afterLast_append.
Qed.

(** C2, as the code has it.  A deployed version can be unreadable in two
    ways, and only one of them is terminal.  When the deployment has no
    container named "console", the pass does one status write of
    OTHER_ERROR ("Can not read deployed container version."), after which
    the stored phase is OTHER_ERROR if that write landed and the store is
    untouched if it did not, and returns no error and no requeue.  When the
    first container named "console" has an image with no tag to read
    (nothing follows the last colon: there is no colon, or the reference
    ends in one), the pass returns the error "failed to read existing image
    tag" and leaves the world as it found it: no status write is made. *)
Theorem unreadable_version_outcomes
    (r : ReconcileKWebUI) (request : Request) (instance : KWebUI)
    (deployment : Deployment) (w : World) :
  let msg := "Can not read deployed container version." in
  let out := reconcileExistingDeployment r request instance deployment w in
  match matchingContainer (Containers deployment) with
  | None =>
      out = ((mkResult false, None), snd (updateStatus r request PhaseOtherError msg w)) /\
      trace (snd out) = trace w ++ statusCalls request PhaseOtherError msg w /\
      match landing request w with
      | Some o =>
          kwebuis (sys (snd out)) !! Request_NamespacedName request =
            Some (mkKWebUI (UID o) (Spec o) (mkKWebUIStatus PhaseOtherError msg))
      | None => sys (snd out) = sys w
      end
  | Some c =>
      (imageTag c = "" <->
         hasChar ":" (Image c) = false \/ exists pre, Image c = pre +:+ ":") /\
      (imageTag c = "" ->
         out = ((mkResult false, Some (ErrOther "failed to read existing image tag")), w))
  end.
Proof.
  intros msg out.
  destruct (matchingContainer (Containers deployment)) as [c|] eqn:Hc.
  - split; [apply afterLast_empty|].
    intros Htag. subst out. unfold reconcileExistingDeployment.
    rewrite existingVersionOf_matching, Hc. unfold normalizedTag. rewrite Htag.
    reflexivity.
  - assert (E : out = ((mkResult false, None),
                       snd (updateStatus r request PhaseOtherError msg w))).
    { subst out. unfold reconcileExistingDeployment.
      rewrite existingVersionOf_matching, Hc. cbv beta iota.
      destruct (decide ("" = "")) as [_|Hn]; [|congruence].
      apply seq_ret. }
    split; [exact E|]. rewrite E, updateStatus_run. project.
    split; [reflexivity|].
    destruct (landing request w) as [o|] eqn:El.
    + now apply statusSys_landed.
    + unfold statusSys. now rewrite El.
Qed.

(** A deployment called console whose only container is a proxy, and one
    whose console image ends in a colon. *)
Lemma unreadable_version_outcomes_witness :
  let d := mkDeployment [] [mkContainer "proxy" "quay.io/kubevirt/proxy:v1.4"] in
  let s := mkSystem {[ (Scenario.ns, "kubevirt-web-ui") := Scenario.cr "1.4" ]}
                    {[ (Scenario.ns, "console") := d ]} ∅ in
  let w := Scenario.world s [] [] [] in
  let out := reconcileExistingDeployment Scenario.r Scenario.request
               (Scenario.cr "1.4") d w in
  let d' := Scenario.console "quay.io/kubevirt/kubevirt-web-ui:" in
  matchingContainer (Containers d) = None /\
  fst out = (mkResult false, None) /\
  Scenario.storedPhase (snd out) = Some PhaseOtherError /\
  reconcileExistingDeployment Scenario.r Scenario.request (Scenario.cr "1.4") d' w =
    ((mkResult false, Some (ErrOther "failed to read existing image tag")), w).
Proof.
  intros d s w out d'.
  pose proof (unreadable_version_outcomes Scenario.r Scenario.request
                (Scenario.cr "1.4") d w) as H.
  pose proof (unreadable_version_outcomes Scenario.r Scenario.request
                (Scenario.cr "1.4") d' w) as H'.
  cbv zeta in H, H'.
  change (matchingContainer (Containers d)) with (@None Container) in H.
  change (matchingContainer (Containers d'))
    with (Some (mkContainer "console" "quay.io/kubevirt/kubevirt-web-ui:")) in H'.
  cbv beta iota in H, H'.
  destruct H as (E & _ & _). destruct H' as (Htag & Herr).
  fold out in E.
  split; [reflexivity|]. rewrite E. split; [reflexivity|]. split; [run|].
  apply Herr, Htag. right. now exists "quay.io/kubevirt/kubevirt-web-ui".
Defined.

(** C2, as the claim has it, fails for an image reference without a tag:
    the pass returns an error (so a retry follows) and makes no status
    write; the stored phase stays what it was. *)
Lemma untagged_image_returns_error :
  let image := "quay.io/kubevirt/kubevirt-web-ui" in
  let w := Scenario.world (Scenario.cluster "1.4" (Some image)) [] [] [] in
  let out := Reconcile Scenario.r Scenario.request w in
  imageTag (mkContainer "console" image) = "" /\
  fst out = (Result_zero, Some (ErrOther "failed to read existing image tag")) /\
  snd (fst out) <> None /\
  Scenario.storedPhase (snd out) = Some "" /\
  Scenario.storedPhase (snd out) <> Some PhaseOtherError /\
  trace (snd out) = [ApiGet KindKWebUI (Scenario.ns, "kubevirt-web-ui");
                     ApiGet KindDeployment (Scenario.ns, "console")].
Proof.
  intros image w out.
  repeat split; try run; vm_compute; discriminate.
Qed.

(** A reference without a tag is not always seen as one: when the registry
    is given with its port, what follows that colon is taken for the
    version, and the pass deprovisions and provisions. *)
Example registry_port_is_read_as_a_version :
  let image := "registry:5000/kubevirt-web-ui" in
  let w := Scenario.world (Scenario.cluster "1.4" (Some image)) [] []
             [Scenario.oc_login; Scenario.oc_project; Scenario.playbook_deprovisions;
              Scenario.oc_login; Scenario.oc_project; Scenario.playbook_provisions "1.4"] in
  let out := Reconcile Scenario.r Scenario.request w in
  existingVersionOf [mkContainer "console" image] = inr "5000/kubevirt-web-ui" /\
  fst out = (Result_zero, None) /\
  Scenario.playbookRuns (snd out) = 2%nat /\
  Scenario.storedPhase (snd out) = Some PhaseProvisioned.
Proof. intros image w out. repeat split; run. Qed.

(** ** The ownership link *)

Lemma setOwnerReference_run r request instance w :
  setOwnerReference r request instance w =
  let got := client_Get_Deployment (ReqNamespace request, "console") w in
  match fst got with
  | inl err =>
      (Some err,
       snd (updateStatus r request PhaseOwnerReferenceFailed
              msgDeploymentNotRetrieved (snd got)))
  | inr _ => (None, snd got)
  end.
Proof.
  unfold setOwnerReference. rewrite bind_proj. cbv zeta.
  destruct (fst (client_Get_Deployment (ReqNamespace request, "console") w));
    [apply seq_ret | reflexivity].
Qed.

Lemma statusCalls_no_deployment_update request phase msg w :
  Forall (fun e => forall k o, e <> ApiUpdate KindDeployment k o)
         (statusCalls request phase msg w).
Proof.
  unfold statusCalls.
  destruct (fst (client_Get_KWebUI (Request_NamespacedName request) w));
    repeat constructor; intros; discriminate.
Qed.

(** C9.  The link step fetches the deployment and, when that fails, reports
    the failure through a status write; these are all its client calls.  No
    update of a Deployment is among them and the stored deployments are the
    same after the step as before.  When the fetch succeeds the step returns
    no error and has done nothing but the fetch, whatever
    [SetControllerReference] made of the in-memory copy. *)
Theorem setOwnerReference_never_updates_deployment
    (r : ReconcileKWebUI) (request : Request) (instance : KWebUI) (w : World) :
  let key := (ReqNamespace request, "console") in
  let got := client_Get_Deployment key w in
  let out := setOwnerReference r request instance w in
  let calls :=
    ApiGet KindDeployment key ::
    match fst got with
    | inl _ => statusCalls request PhaseOwnerReferenceFailed
                 msgDeploymentNotRetrieved (snd got)
    | inr _ => []
    end in
  deployments (sys (snd out)) = deployments (sys w) /\
  trace (snd out) = trace w ++ calls /\
  Forall (fun e => forall k o, e <> ApiUpdate KindDeployment k o) calls /\
  match fst got with
  | inl err => fst out = Some err
  | inr _ => out = (None, snd got)
  end.
Proof.
  intros key got out calls. subst out calls.
  rewrite setOwnerReference_run. cbv zeta. fold key. fold got.
  assert (Hgot : snd got = _) by apply client_Get_Deployment_run.
  destruct (fst got) as [err|d]; project.
  - rewrite updateStatus_run. project. rewrite Hgot. project.
    rewrite statusSys_deployments. project.
    repeat split.
    + now rewrite <- app_assoc.
    + constructor; [intros; discriminate|].
      rewrite <- Hgot. apply statusCalls_no_deployment_update.
  - rewrite Hgot. project. repeat split.
    constructor; [intros; discriminate | constructor].
Qed.

Lemma setOwnerReference_never_updates_deployment_witness :
  let w := Scenario.world
             (Scenario.cluster "v2.0" (Some "quay.io/kubevirt/kubevirt-web-ui:v2.0"))
             [] [] [] in
  let out := setOwnerReference Scenario.r Scenario.request (Scenario.cr "v2.0") w in
  deployments (sys (snd out)) = deployments (sys w) /\
  trace (snd out) = [ApiGet KindDeployment (Scenario.ns, "console")] /\
  (deployments (sys (snd out)) !! (Scenario.ns, "console")) =
    Some (Scenario.console "quay.io/kubevirt/kubevirt-web-ui:v2.0").
Proof.
  intros w out.
  destruct (setOwnerReference_never_updates_deployment Scenario.r Scenario.request
              (Scenario.cr "v2.0") w) as (Hd & Ht & _ & _).
  subst out. split; [exact Hd|]. split; [rewrite Ht; run|]. rewrite Hd. run.
Defined.

(** ** The provision pass *)

(** C10, as the code has it.  A provision pass whose playbook run succeeded
    returns no error and no requeue, and its last act is the status write
    of PROVISIONED ("Provision finished."), made on the world the link step
    left.  This is so whatever the link step returned.  The stored phase is
    PROVISIONED when that write lands; when it does not, the store stays
    what the link step left.  When the link step failed, what it left is
    its own status write of OWNER_REFERENCE_FAILED, which the write of
    PROVISIONED follows at once. *)
Theorem provisioned_whatever_the_link_step_returns
    (r : ReconcileKWebUI) (request : Request) (instance : KWebUI) (w : World) :
  Version (Spec instance) <> "" ->
  let key := Request_NamespacedName request in
  let w1 := snd (updateStatus r request PhaseFreshProvision
                   ("Target version: " +:+ Version (Spec instance)) w) in
  let run := runPlaybookWithSetup (ReqNamespace request) instance "provision" w1 in
  snd (fst run) = None ->
  let link := setOwnerReference r request instance (snd run) in
  let fetched := client_Get_Deployment (ReqNamespace request, "console") (snd run) in
  let out := freshProvision r request instance w in
  fst out = (mkResult false, None) /\
  snd out = snd (updateStatus r request PhaseProvisioned "Provision finished." (snd link)) /\
  trace (snd out) =
    trace (snd link) ++ statusCalls request PhaseProvisioned "Provision finished." (snd link) /\
  match landing request (snd link) with
  | Some o =>
      kwebuis (sys (snd out)) !! key =
        Some (mkKWebUI (UID o) (Spec o)
                (mkKWebUIStatus PhaseProvisioned "Provision finished."))
  | None => sys (snd out) = sys (snd link)
  end /\
  match fst link with
  | Some _ =>
      snd link = snd (updateStatus r request PhaseOwnerReferenceFailed
                        msgDeploymentNotRetrieved (snd fetched))
  | None => snd link = snd fetched
  end.
Proof.
  intros Hv key w1 run Hrun link fetched out. subst out.
  rewrite freshProvision_run by exact Hv. cbv zeta.
  fold w1. fold run. rewrite Hrun. fold link. project.
  repeat split.
  - now rewrite updateStatus_run.
  - rewrite updateStatus_run. project.
    destruct (landing request (snd link)) as [o|] eqn:E.
    + now apply statusSys_landed.
    + unfold statusSys. now rewrite E.
  - subst link. rewrite setOwnerReference_run. cbv zeta. fold fetched.
    now destruct (fst fetched).
Qed.

(** A provision in which the fetch of the link step fails: the third client
    call of [freshProvision], after the two of the PROVISION_STARTED write. *)
Lemma provisioned_whatever_the_link_step_returns_witness :
  let w := Scenario.world (Scenario.cluster "v2.0" None)
             [None; None; Some (ErrOther "etcdserver: request timed out")] []
             [Scenario.oc_login; Scenario.oc_project; Scenario.playbook_provisions "v2.0"] in
  let w1 := snd (updateStatus Scenario.r Scenario.request PhaseFreshProvision
                   "Target version: v2.0" w) in
  let run := runPlaybookWithSetup Scenario.ns (Scenario.cr "v2.0") "provision" w1 in
  let link := setOwnerReference Scenario.r Scenario.request (Scenario.cr "v2.0") (snd run) in
  let out := freshProvision Scenario.r Scenario.request (Scenario.cr "v2.0") w in
  fst link = Some (ErrOther "etcdserver: request timed out") /\
  Scenario.storedPhase (snd link) = Some PhaseOwnerReferenceFailed /\
  fst out = (mkResult false, None) /\
  Scenario.storedPhase (snd out) = Some PhaseProvisioned.
Proof.
  intros w w1 run link out.
  destruct (provisioned_whatever_the_link_step_returns Scenario.r Scenario.request
              (Scenario.cr "v2.0") w) as (Hres & Hw & _).
  - vm_compute; discriminate.
  - run.
  - split; [run|]. split; [run|]. split; [exact Hres|].
    subst out. rewrite Hw. run.
Defined.

(** C10, as the claim has it, fails when the last status write does not
    land.  The fetch of the link step fails, its write of
    OWNER_REFERENCE_FAILED lands, and the fetch of the write of PROVISIONED
    fails: the pass returns no error, the deployment is provisioned, and the
    recorded phase is, and stays, OWNER_REFERENCE_FAILED. *)
Lemma provisioned_write_may_not_land :
  let failure := ErrOther "etcdserver: request timed out" in
  let w := Scenario.world (Scenario.cluster "v2.0" None)
             [None; None; None; None; Some failure; None; None; Some failure] []
             [Scenario.oc_login; Scenario.oc_project; Scenario.playbook_provisions "v2.0"] in
  let out := Reconcile Scenario.r Scenario.request w in
  fst out = (Result_zero, None) /\
  Scenario.playbookRuns (snd out) = 1%nat /\
  deployments (sys (snd out)) !! (Scenario.ns, "console") =
    Some (Scenario.console "quay.io/kubevirt/kubevirt-web-ui:v2.0") /\
  Scenario.storedPhase (snd out) = Some PhaseOwnerReferenceFailed /\
  Scenario.storedPhase (snd out) <> Some PhaseProvisioned /\
  List.filter (fun e => match e with ApiUpdate _ _ _ => true | _ => false end)
              (trace (snd out)) =
    [ApiUpdate KindKWebUI (Scenario.ns, "kubevirt-web-ui")
       (ObjKWebUI (set_status PhaseFreshProvision "Target version: v2.0" (Scenario.cr "v2.0")));
     ApiUpdate KindKWebUI (Scenario.ns, "kubevirt-web-ui")
       (ObjKWebUI (set_status PhaseOwnerReferenceFailed msgDeploymentNotRetrieved
                     (Scenario.cr "v2.0")))] /\
  last (trace (snd out)) = Some (ApiGet KindKWebUI (Scenario.ns, "kubevirt-web-ui")).
Proof.
  intros failure w out.
  repeat split; try run; vm_compute; discriminate.
Qed.

(** C3 at work.  The deployment is provisioned, the link step cannot fetch
    it and returns its error, and the pass nevertheless returns no error:
    the status goes from OWNER_REFERENCE_FAILED to PROVISIONED, and no second
    playbook run undoes anything. *)
Example link_failure_is_not_reported :
  let failure := ErrOther "etcdserver: request timed out" in
  let w := Scenario.world (Scenario.cluster "v2.0" None)
             [None; None; None; None; Some failure] []
             [Scenario.oc_login; Scenario.oc_project; Scenario.playbook_provisions "v2.0"] in
  let out := Reconcile Scenario.r Scenario.request w in
  fst out = (Result_zero, None) /\
  Scenario.storedPhase (snd out) = Some PhaseProvisioned /\
  Scenario.playbookRuns (snd out) = 1%nat /\
  deployments (sys (snd out)) !! (Scenario.ns, "console") =
    Some (Scenario.console "quay.io/kubevirt/kubevirt-web-ui:v2.0") /\
  List.filter (fun e => match e with ApiUpdate _ _ _ => true | _ => false end)
              (trace (snd out)) =
    [ApiUpdate KindKWebUI (Scenario.ns, "kubevirt-web-ui")
       (ObjKWebUI (set_status PhaseFreshProvision "Target version: v2.0" (Scenario.cr "v2.0")));
     ApiUpdate KindKWebUI (Scenario.ns, "kubevirt-web-ui")
       (ObjKWebUI (set_status PhaseOwnerReferenceFailed msgDeploymentNotRetrieved
                     (Scenario.cr "v2.0")));
     ApiUpdate KindKWebUI (Scenario.ns, "kubevirt-web-ui")
       (ObjKWebUI (set_status PhaseProvisioned "Provision finished." (Scenario.cr "v2.0")))].
Proof. intros failure w out. repeat split; run. Qed.

(** ** What a computation adds to the record of calls *)

Lemma emits_ret {A} P (a : A) : emits P (ret a).
Proof. intros w. exists []. split; [symmetry; apply app_nil_r | constructor]. Qed.

Lemma emits_bind {A B} P (m : M A) (k : A -> M B) :
  emits P m -> (forall a, emits P (k a)) -> emits P (bind m k).
Proof.
  intros Hm Hk w. rewrite bind_proj.
  destruct (Hm w) as (evs1 & E1 & F1).
  destruct (Hk (fst (m w)) (snd (m w))) as (evs2 & E2 & F2).
  exists (evs1 ++ evs2). split.
  - rewrite E2, E1. symmetry. apply app_assoc.
  - apply Forall_app. now split.
Qed.

Lemma emits_silent {A} P (m : M A) :
  (forall w, trace (snd (m w)) = trace w) -> emits P m.
Proof.
  intros H w. exists [].
  split; [rewrite H; symmetry; apply app_nil_r | constructor].
Qed.

Lemma emits_record P e : P e -> emits P (record e).
Proof. intros H w. exists [e]. split; [reflexivity | now constructor]. Qed.

Lemma emits_weaken {A} (P Q : Event -> Prop) (m : M A) :
  (forall e, P e -> Q e) -> emits P m -> emits Q m.
Proof.
  intros HPQ Hm w. destruct (Hm w) as (evs & E & F).
  exists evs. split; [exact E|]. eapply Forall_impl; eauto.
Qed.

Lemma emits_api_fault P : emits P api_fault.
Proof. apply emits_silent. intros w. unfold api_fault. now destruct (pop_fault _). Qed.

Lemma emits_fs_fault P : emits P fs_fault.
Proof. apply emits_silent. intros w. unfold fs_fault. now destruct (pop_fault _). Qed.

Lemma emits_get_sys P : emits P get_sys.
Proof. now apply emits_silent. Qed.

Lemma emits_put_sys P s : emits P (put_sys s).
Proof. now apply emits_silent. Qed.

Lemma emits_next_process P : emits P next_process.
Proof. apply emits_silent. intros w. unfold next_process. now destruct (procs w). Qed.

Lemma emits_rand_Read P : emits P rand_Read.
Proof. apply emits_silent. intros w. unfold rand_Read. now destruct (entropy w). Qed.

Lemma emits_rest_InClusterConfig P : emits P rest_InClusterConfig.
Proof. now apply emits_silent. Qed.

Create HintDb emits.
#[export] Hint Resolve emits_ret emits_api_fault emits_fs_fault emits_get_sys
  emits_put_sys emits_next_process emits_rand_Read emits_rest_InClusterConfig : emits.

(** Peel binds and branches down to the recorded events. *)
Ltac emits_prim :=
  repeat first
    [ solve [auto with emits]
    | apply emits_bind; [|intros ?]
    | apply emits_record
    | match goal with
      | |- emits _ (match ?x with _ => _ end) => destruct x
      | |- emits _ (when_ ?b _) => unfold when_; destruct b
      end ].

Lemma emits_runCommand P cmd args env anonymArgs :
  (forall e, P (Exec (mkInvocation cmd args e))) ->
  emits P (runCommand cmd args env anonymArgs).
Proof.
  intros H w. unfold runCommand.
  match goal with
  | |- context [bind ?m ?k w] => assert (He : emits P (bind m k))
  end.
  { emits_prim; auto. }
  exact (He w).
Qed.

Ltac emits_steps :=
  repeat first
    [ solve [auto with emits]
    | apply emits_bind; [|intros ?]
    | apply emits_record
    | apply emits_runCommand; intros ?
    | progress cbv zeta
    | match goal with
      | |- emits _ (match ?x with _ => _ end) => destruct x
      | |- emits _ (when_ ?b _) => unfold when_; destruct b
      end ].

(** The workflow and the link step only ever add to the record. *)
Lemma runPlaybookWithSetup_extends namespace instance action :
  emits (fun _ => True) (runPlaybookWithSetup namespace instance action).
Proof. unfold runPlaybookWithSetup. emits_steps; exact I. Qed.

Lemma setOwnerReference_extends r request instance :
  emits (fun _ => True) (setOwnerReference r request instance).
Proof. unfold setOwnerReference. emits_steps; exact I. Qed.

(** No line [apb_action=provision] comes from a write of the inventory
    whose values each stay on their line. *)
Ltac one_line :=
  first [ assumption
        | apply oneLine_def; [assumption | reflexivity]
        | reflexivity ].

Ltac not_the_provision_line :=
  let H := fresh "H" in
  cbn [provisioning set_status Status Phase]; intros H; try exact H;
  lazymatch type of H with
  | In _ (Split (strings.Join [?p; ?v; nl] "") nl) =>
      apply (line_of_write p v) in H; [|one_line..];
      destruct H as [H|H]; vm_compute in H; congruence
  | In _ (Split (?p +:+ ?v +:+ nl) nl) =>
      apply (line_of_write p v) in H; [|one_line..];
      destruct H as [H|H]; vm_compute in H; congruence
  | In _ _ => vm_compute in H; intuition discriminate
  | _ \/ _ => destruct H as [H|[H|H]]; vm_compute in H; discriminate H
  end.

Lemma generateInventory_is_no_provision instance namespace action :
  oneLineInputs (Spec instance) namespace action ->
  action <> "provision" ->
  emits (fun e => ~ provisioning e) (generateInventory instance namespace action).
Proof.
  intros (Hv & Hu & Hn & Hs & Hh & Hns & Ha) Hne.
  unfold generateInventory. emits_steps.
  all: not_the_provision_line.
Qed.

Lemma deprovision_is_no_provision r request instance :
  oneLineInputs (Spec instance) (ReqNamespace request) "deprovision" ->
  emits (fun e => ~ provisioning e) (deprovision r request instance).
Proof.
  intros Hin.
  assert (Hinv : emits (fun e => ~ provisioning e)
                   (generateInventory instance (ReqNamespace request) "deprovision"))
    by (apply generateInventory_is_no_provision; [exact Hin | discriminate]).
  unfold deprovision, runPlaybookWithSetup. emits_steps.
  all: try exact Hinv.
  all: not_the_provision_line.
Qed.

(** ** The decision on an existing deployment *)

Lemma reconcileExistingDeployment_readable r request instance deployment c w :
  matchingContainer (Containers deployment) = Some c ->
  normalizedTag c <> "" ->
  reconcileExistingDeployment r request instance deployment w =
  if decide (Version (Spec instance) = normalizedTag c) then
    ((Result_zero, None),
     snd (updateStatus r request PhaseProvisioned
            ("Existing version conform the requested one: " +:+ normalizedTag c +:+
             ". Nothing to do.") w))
  else if decide (Version (Spec instance) = "") then deprovision r request instance w
  else
    let dep := deprovision r request instance w in
    match snd (fst dep) with
    | Some err => ((Result_zero, Some err), snd dep)
    | None => freshProvision r request instance (snd dep)
    end.
Proof.
  intros Hc Hne. unfold reconcileExistingDeployment.
  rewrite existingVersionOf_matching, Hc.
  destruct (decide (normalizedTag c = "")) as [?|_]; [congruence|].
  destruct (decide (normalizedTag c = "")) as [?|_]; [congruence|].
  destruct (decide (Version (Spec instance) = normalizedTag c)); [apply seq_ret|].
  destruct (decide (Version (Spec instance) = "")); [reflexivity|].
  rewrite bind_proj. cbv zeta.
  now destruct (snd (fst (deprovision r request instance w))).
Qed.

(** The no-op the code does have: the desired version, as written, equals
    the deployed tag without its leading "v". *)
Lemma noop_when_desired_is_the_stripped_tag r request instance deployment c w :
  matchingContainer (Containers deployment) = Some c ->
  normalizedTag c <> "" ->
  Version (Spec instance) = normalizedTag c ->
  reconcileExistingDeployment r request instance deployment w =
    ((Result_zero, None),
     snd (updateStatus r request PhaseProvisioned
            ("Existing version conform the requested one: " +:+ normalizedTag c +:+
             ". Nothing to do.") w)).
Proof.
  intros Hc Hne Hv.
  rewrite (reconcileExistingDeployment_readable _ _ _ _ c) by assumption.
  destruct (decide (Version (Spec instance) = normalizedTag c)); [reflexivity|congruence].
Qed.

(** C5.  Desired and deployed version both non-empty and different.  The
    pass starts with the attempt to deprovision: the status write of
    DEPROVISION_STARTED, the workflow run for "deprovision", and the status
    write of DEPROVISIONED or DEPROVISION_FAILED.  If the workflow failed,
    these are all the calls of the pass: it ends in the world the
    deprovision left and returns the workflow's error.  If it succeeded,
    the attempt to provision follows, and only then: the status write of
    PROVISION_STARTED with the target version, the workflow run for
    "provision", and what closes a provision (the status write of
    PROVISION_FAILED, or the link step and the status write of
    PROVISIONED); the pass returns what that workflow returned.  With values that each stay on their line, nothing
    the deprovision does is a provisioning event: no line
    [apb_action=provision] is written and no status of a provision phase. *)
Theorem version_change_deprovisions_first
    (r : ReconcileKWebUI) (request : Request) (instance : KWebUI)
    (deployment : Deployment) (c : Container) (w : World) :
  matchingContainer (Containers deployment) = Some c ->
  normalizedTag c <> "" ->
  Version (Spec instance) <> "" ->
  Version (Spec instance) <> normalizedTag c ->
  let ns := ReqNamespace request in
  let target := "Target version: " +:+ Version (Spec instance) in
  let w1 := snd (updateStatus r request PhaseDeprovision "" w) in
  let runD := runPlaybookWithSetup ns instance "deprovision" w1 in
  let dep := deprovision r request instance w in
  let w2 := snd (updateStatus r request PhaseFreshProvision target (snd dep)) in
  let runP := runPlaybookWithSetup ns instance "provision" w2 in
  let linked := setOwnerReference r request instance (snd runP) in
  let out := reconcileExistingDeployment r request instance deployment w in
  exists workflowD,
    trace (snd runD) = trace w1 ++ workflowD /\
    fst dep = (mkResult false, snd (fst runD)) /\
    trace (snd dep) =
      trace w ++ statusCalls request PhaseDeprovision "" w ++ workflowD ++
      match snd (fst runD) with
      | None => statusCalls request PhaseDeprovisioned "Deprovision finished." (snd runD)
      | Some _ =>
          statusCalls request PhaseDeprovisionFailed msgDeprovisionFailed (snd runD)
      end /\
    (oneLineInputs (Spec instance) ns "deprovision" ->
     exists evs, trace (snd dep) = trace w ++ evs /\
                 Forall (fun e => ~ provisioning e) evs) /\
    match snd (fst runD) with
    | Some err => out = ((mkResult false, Some err), snd dep)
    | None =>
        exists workflowP link,
          trace (snd runP) = trace w2 ++ workflowP /\
          trace (snd linked) = trace (snd runP) ++ link /\
          fst out = (mkResult false, snd (fst runP)) /\
          trace (snd out) =
            trace (snd dep) ++ statusCalls request PhaseFreshProvision target (snd dep) ++
            workflowP ++
            match snd (fst runP) with
            | None =>
                link ++
                statusCalls request PhaseProvisioned "Provision finished." (snd linked)
            | Some _ =>
                statusCalls request PhaseProvisionFailed msgProvisionFailed (snd runP)
            end
    end.
Proof.
  intros Hc Hne Hv Hdiff ns target w1 runD dep w2 runP linked out.
  destruct (runPlaybookWithSetup_extends ns instance "deprovision" w1)
    as (workflowD & ED & _). fold runD in ED.
  exists workflowD. split; [exact ED|].
  assert (Edep : dep =
            match snd (fst runD) with
            | None =>
                ((Result_zero, None),
                 snd (updateStatus r request PhaseDeprovisioned "Deprovision finished."
                        (snd runD)))
            | Some err =>
                ((Result_zero, Some err),
                 snd (updateStatus r request PhaseDeprovisionFailed msgDeprovisionFailed
                        (snd runD)))
            end)
    by (subst dep; apply deprovision_run).
  assert (E1 : trace w1 = trace w ++ statusCalls request PhaseDeprovision "" w)
    by (subst w1; now rewrite updateStatus_run).
  split; [|split; [|split]].
  - rewrite Edep. now destruct (snd (fst runD)).
  - rewrite Edep.
    destruct (snd (fst runD)); cbn [snd]; rewrite updateStatus_run; project;
      rewrite ED, E1, <- !app_assoc; reflexivity.
  - intros Hin. apply deprovision_is_no_provision, Hin.
  - assert (Eout : out = match snd (fst dep) with
                         | Some err => ((Result_zero, Some err), snd dep)
                         | None => freshProvision r request instance (snd dep)
                         end).
    { subst out.
      rewrite (reconcileExistingDeployment_readable _ _ _ _ c) by assumption.
      destruct (decide (Version (Spec instance) = normalizedTag c)); [congruence|].
      destruct (decide (Version (Spec instance) = "")); [congruence|].
      reflexivity. }
    assert (Eerr : snd (fst dep) = snd (fst runD))
      by (rewrite Edep; now destruct (snd (fst runD))).
    rewrite Eerr in Eout.
    destruct (snd (fst runD)) as [err|]; [exact Eout|].
    destruct (runPlaybookWithSetup_extends ns instance "provision" w2)
      as (workflowP & EP & _). fold runP in EP.
    assert (E2 : trace w2 =
                 trace (snd dep) ++ statusCalls request PhaseFreshProvision target (snd dep))
      by (subst w2; now rewrite updateStatus_run).
    destruct (setOwnerReference_extends r request instance (snd runP))
      as (link & EL & _). fold linked in EL.
    rewrite Eout, freshProvision_run by exact Hv. cbv zeta.
    fold target. fold w2. fold ns. fold runP. fold linked.
    exists workflowP, link. split; [exact EP|]. split; [exact EL|].
    destruct (snd (fst runP)) as [err|].
    + split; [reflexivity|].
      cbn [snd]. rewrite updateStatus_run. project.
      now rewrite EP, E2, <- !app_assoc.
    + split; [reflexivity|].
      cbn [snd]. rewrite updateStatus_run. project.
      now rewrite EL, EP, E2, <- !app_assoc.
Qed.

(** Desired "v2.0" over a deployed "v1.4": one playbook run deprovisions,
    a second one provisions, and the status goes through the four phases in
    this order. *)
Lemma version_change_deprovisions_first_witness :
  let c := mkContainer "console" "quay.io/kubevirt/kubevirt-web-ui:v1.4" in
  let d := mkDeployment [] [c] in
  let w := Scenario.world
             (Scenario.cluster "v2.0" (Some "quay.io/kubevirt/kubevirt-web-ui:v1.4"))
             [] []
             [Scenario.oc_login; Scenario.oc_project; Scenario.playbook_deprovisions;
              Scenario.oc_login; Scenario.oc_project; Scenario.playbook_provisions "v2.0"] in
  let dep := deprovision Scenario.r Scenario.request (Scenario.cr "v2.0") w in
  let out := reconcileExistingDeployment Scenario.r Scenario.request
               (Scenario.cr "v2.0") d w in
  normalizedTag c = "1.4" /\
  oneLineInputs (Spec (Scenario.cr "v2.0")) Scenario.ns "deprovision" /\
  (exists evs, trace (snd dep) = trace w ++ evs /\
               Forall (fun e => ~ provisioning e) evs) /\
  fst out = (mkResult false, None) /\
  Scenario.playbookRuns (snd dep) = 1%nat /\
  Scenario.playbookRuns (snd out) = 2%nat /\
  Scenario.statusPhases (snd out) =
    [PhaseDeprovision; PhaseDeprovisioned; PhaseFreshProvision; PhaseProvisioned] /\
  deployments (sys (snd out)) !! (Scenario.ns, "console") =
    Some (Scenario.console "quay.io/kubevirt/kubevirt-web-ui:v2.0").
Proof.
  intros c d w dep out.
  assert (Hin : oneLineInputs (Spec (Scenario.cr "v2.0")) Scenario.ns "deprovision")
    by (repeat split; reflexivity).
  destruct (version_change_deprovisions_first Scenario.r Scenario.request
              (Scenario.cr "v2.0") d c w)
    as (workflowD & _ & _ & _ & Hno & H).
  - reflexivity.
  - vm_compute; discriminate.
  - vm_compute; discriminate.
  - vm_compute; discriminate.
  - fold dep in Hno. fold out in H.
    match type of H with
    | match ?x with _ => _ end => assert (E : x = None) by run; rewrite E in H
    end.
    destruct H as (workflowP & link & _ & _ & Hres & _).
    split; [run|]. split; [exact Hin|]. split; [exact (Hno Hin)|].
    split; [rewrite Hres; run|]. repeat split; run.
Defined.

(** One pass, from the two fetches to the decision. *)
Lemma Reconcile_run r request w :
  Reconcile r request w =
  let got := client_Get_KWebUI (Request_NamespacedName request) w in
  match fst got with
  | inl err =>
      ((Result_zero, if IsNotFound err then None else Some err), snd got)
  | inr instance =>
      let dep := client_Get_Deployment (ReqNamespace request, "console") (snd got) in
      match fst dep with
      | inl err =>
          if IsNotFound err then freshProvision r request instance (snd dep)
          else ((Result_zero, Some err),
                snd (updateStatus r request PhaseOtherError
                       "Failed to retrieve kubevirt-web-ui Deployment object." (snd dep)))
      | inr deployment =>
          reconcileExistingDeployment r request instance deployment (snd dep)
      end
  end.
Proof.
  unfold Reconcile. rewrite bind_proj. cbv zeta.
  destruct (fst (client_Get_KWebUI _ w)) as [err|instance].
  - now destruct (IsNotFound err).
  - rewrite bind_proj.
    destruct (fst (client_Get_Deployment _ _)) as [err|d]; [|reflexivity].
    destruct (IsNotFound err); [reflexivity | apply seq_ret].
Qed.

Lemma String_neq_tail a (s : string) : String a s <> s.
Proof.
  intros H. apply (f_equal String.length) in H. simpl in H. lia.
Qed.

Lemma TrimPrefix_v x : strings.TrimPrefix (String "v" x) "v" = x.
Proof.
  unfold strings.TrimPrefix, strings.HasPrefix.
  cbn [String.prefix String.length strings.slice_from].
  destruct (Ascii.ascii_dec "v" "v") as [_|Hn]; [|congruence].
  now destruct x.
Qed.

(** A desired version written with the leading "v" never matches the
    deployed tag it names: the pass deprovisions, and provisions again. *)
Lemma v_prefixed_version_never_matches r request instance deployment c x w :
  matchingContainer (Containers deployment) = Some c ->
  imageTag c = String "v" x ->
  x <> "" ->
  Version (Spec instance) = String "v" x ->
  reconcileExistingDeployment r request instance deployment w =
    let dep := deprovision r request instance w in
    match snd (fst dep) with
    | Some err => ((Result_zero, Some err), snd dep)
    | None => freshProvision r request instance (snd dep)
    end.
Proof.
  intros Hc Htag Hx Hv.
  assert (Hn : normalizedTag c = x) by (unfold normalizedTag; rewrite Htag; apply TrimPrefix_v).
  rewrite (reconcileExistingDeployment_readable _ _ _ _ c) by congruence.
  rewrite Hn, Hv.
  destruct (decide (String "v" x = x)) as [E|_]; [now apply String_neq_tail in E|].
  destruct (decide (String "v" x = "")) as [E|_]; [discriminate E|].
  reflexivity.
Qed.

(** C1 at work.  Desired "v1.4" over a deployed image tagged "v1.4": the two
    are equal once the leading "v" is stripped from both, but the code
    strips it from the deployed tag alone, finds "v1.4" different from
    "1.4", and deprovisions and provisions again. *)
Example v_prefixed_version_is_reprovisioned :
  let image := "quay.io/kubevirt/kubevirt-web-ui:v1.4" in
  let w := Scenario.world (Scenario.cluster "v1.4" (Some image)) [] []
             [Scenario.oc_login; Scenario.oc_project; Scenario.playbook_deprovisions;
              Scenario.oc_login; Scenario.oc_project; Scenario.playbook_provisions "v1.4"] in
  let out := Reconcile Scenario.r Scenario.request w in
  strings.TrimPrefix "v1.4" "v" = normalizedTag (mkContainer "console" image) /\
  existingVersionOf [mkContainer "console" image] = inr "1.4" /\
  fst out = (Result_zero, None) /\
  Scenario.playbookRuns (snd out) = 2%nat /\
  map (fun o => match o with
                | ApiUpdate _ _ (ObjKWebUI o) => Phase (Status o)
                | _ => ""
                end)
      (List.filter (fun e => match e with ApiUpdate _ _ _ => true | _ => false end)
                   (trace (snd out))) =
    [PhaseDeprovision; PhaseDeprovisioned; PhaseFreshProvision; PhaseProvisioned] /\
  (Message <$> (Status <$> kwebuis (sys (snd out)) !! (Scenario.ns, "kubevirt-web-ui")))
    = Some "Provision finished.".
Proof. intros image w out. repeat split; run. Qed.

(** ** The generated inventory *)

Lemma quiet_pop w :
  quiet w ->
  fst (pop_fault (fs_faults w)) = None /\
  Forall (fun f => f = None) (snd (pop_fault (fs_faults w))).
Proof.
  unfold quiet. destruct (fs_faults w) as [|f q]; simpl; intros H.
  - split; [reflexivity | constructor].
  - inversion H; subst. now split.
Qed.

Lemma unique_run w :
  exists suffix w', unique w = (suffix, w') /\
    fs_faults w' = fs_faults w /\ sys w' = sys w.
Proof.
  unfold unique, rand_Read, bind, ret.
  destruct (entropy w) as [|[b|] q]; simpl; eauto.
Qed.

Lemma os_Create_quiet path w :
  quiet w ->
  exists w', os_Create path w = (None, w') /\ quiet w' /\
             files (sys w') !! path = Some "".
Proof.
  intros Hq. destruct (quiet_pop w Hq) as [Hf Hrest].
  unfold os_Create, bind, ret, record, fs_fault, get_sys, put_sys, emit, quiet in *.
  cbn [fs_faults]. destruct (pop_fault (fs_faults w)) as [f q].
  cbn [fst snd] in *. subst f.
  eexists. split; [reflexivity|]. cbn.
  split; [exact Hrest | apply lookup_insert_eq].
Qed.

Lemma WriteString_quiet path data old w :
  quiet w -> files (sys w) !! path = Some old ->
  exists w', WriteString path data w = (None, w') /\ quiet w' /\
             files (sys w') !! path = Some (old +:+ data).
Proof.
  intros Hq Hold. destruct (quiet_pop w Hq) as [Hf Hrest].
  unfold WriteString, bind, ret, record, fs_fault, get_sys, put_sys, emit, quiet in *.
  cbn [fs_faults]. destruct (pop_fault (fs_faults w)) as [f q].
  cbn [fst snd] in *. subst f.
  eexists. split; [reflexivity|].
  cbn [sys files set_files set_sys set_fs_faults fs_faults].
  split; [exact Hrest|]. rewrite lookup_alter_eq, Hold. reflexivity.
Qed.

Lemma when_WriteString_quiet (b : bool) path data old w :
  quiet w -> files (sys w) !! path = Some old ->
  exists w', when_ b (WriteString path data) w = (tt, w') /\ quiet w' /\
             files (sys w') !! path = Some (old +:+ (if b then data else "")).
Proof.
  intros Hq Hold. destruct b; unfold when_.
  - destruct (WriteString_quiet path data old w Hq Hold) as (w' & E & Hq' & Hf').
    exists w'. split; [|now split]. now rewrite (bind_run _ _ _ _ _ E).
  - exists w. split; [reflexivity|]. split; [exact Hq|]. now rewrite append_nil_r.
Qed.

(** One write of [generateInventory] on a quiet file system. *)
Ltac write_step Hq Hf :=
  match goal with
  | |- context [bind (WriteString ?p ?d) ?k ?w] =>
      let w' := fresh "w" in
      let E := fresh "E" in
      let Hq' := fresh "Hq" in
      let Hf' := fresh "Hf" in
      destruct (WriteString_quiet p d _ w Hq Hf) as (w' & E & Hq' & Hf');
      rewrite (bind_run _ _ _ _ _ E); clear E Hq Hf;
      rename Hq' into Hq; rename Hf' into Hf
  | |- context [bind (when_ ?b (WriteString ?p ?d)) ?k ?w] =>
      let w' := fresh "w" in
      let E := fresh "E" in
      let Hq' := fresh "Hq" in
      let Hf' := fresh "Hf" in
      destruct (when_WriteString_quiet b p d _ w Hq Hf) as (w' & E & Hq' & Hf');
      rewrite (bind_run _ _ _ _ _ E); clear E Hq Hf;
      rename Hq' into Hq; rename Hf' into Hf
  end.

(** What the writes of [generateInventory] add up to is the text of the
    specification. *)
Lemma generateInventory_quiet instance namespace action w :
  quiet w ->
  exists w',
    generateInventory instance namespace action w =
      ((InventoryFilePattern (fst (unique w)), None), w') /\
    quiet w' /\
    files (sys w') !! InventoryFilePattern (fst (unique w)) =
      Some (spec_inventoryText (Spec instance) namespace action).
Proof.
  intros Hq. unfold generateInventory.
  destruct (unique_run w) as (suffix & w0 & Eu & Hfs & Hsys).
  rewrite (bind_run _ _ _ _ _ Eu). rewrite Eu. cbn [fst]. cbv zeta.
  assert (Hq0 : quiet w0) by (unfold quiet; now rewrite Hfs).
  clear Hq Eu Hfs Hsys.
  destruct (os_Create_quiet (InventoryFilePattern suffix) w0 Hq0) as (w1 & E & Hq & Hf).
  rewrite (bind_run _ _ _ _ _ E). clear E Hq0.
  do 13 write_step Hq Hf.
  destruct (WriteString_quiet (InventoryFilePattern suffix)
              ("127.0.0.1 ansible_connection=local" +:+ nl) _ _ Hq Hf)
    as (w' & E & Hq' & Hf').
  rewrite (bind_run _ _ _ _ _ E).
  exists w'. split; [reflexivity|]. split; [exact Hq'|].
  rewrite Hf'. f_equal. clear.
  unfold spec_inventoryText, spec_inventoryLines, spec_headerLines, spec_optionalLines, spec_footerLines,
    strings.Join, def.
  destruct (decide (action = "deprovision")) as [Ha|Ha];
    [rewrite (bool_decide_eq_true_2 _ Ha) | rewrite (bool_decide_eq_false_2 _ Ha)];
  (destruct (decide (OpenshiftMasterDefaultSubdomain (Spec instance) = "")) as [Hs|Hs];
    [rewrite bool_decide_eq_false_2 by (intros Hn; exact (Hn Hs))
    | rewrite (bool_decide_eq_true_2 _ Hs)]);
  (destruct (decide (PublicMasterHostname (Spec instance) = "")) as [Hp|Hp];
    [rewrite bool_decide_eq_false_2 by (intros Hn; exact (Hn Hp))
    | rewrite (bool_decide_eq_true_2 _ Hp)]).
  all: cbn [map List.app String.concat].
  all: rewrite ?append_nil_r, !append_assoc.
  all: reflexivity.
Qed.

(** Two different strings cannot be one line of the inventory. *)
Ltac absurd_line :=
  repeat match goal with
         | H : _ \/ _ |- _ => destruct H
         | H : False |- _ => destruct H
         | H : @eq string _ _ |- _ => vm_compute in H; discriminate H
         end.

Lemma in_spec_optionalLines x spec action :
  In x (spec_optionalLines spec action) <->
  (action = "deprovision" /\ x = "preserve_namespace=true") \/
  (OpenshiftMasterDefaultSubdomain spec <> "" /\
   x = "openshift_master_default_subdomain=" +:+ OpenshiftMasterDefaultSubdomain spec) \/
  (PublicMasterHostname spec <> "" /\
   x = "public_master_hostname=" +:+ PublicMasterHostname spec).
Proof.
  unfold spec_optionalLines.
  destruct (decide (action = "deprovision"));
    destruct (decide (OpenshiftMasterDefaultSubdomain spec = ""));
    destruct (decide (PublicMasterHostname spec = ""));
    cbn [In List.app]; intuition congruence.
Qed.

Lemma in_spec_inventoryLines x spec namespace action :
  In x (spec_inventoryLines spec namespace action) <->
  In x (spec_headerLines spec namespace action) \/
  In x (spec_optionalLines spec action) \/
  In x spec_footerLines.
Proof. unfold spec_inventoryLines. now rewrite !in_app_iff. Qed.

Lemma preserve_namespace_line spec namespace action :
  In "preserve_namespace=true" (spec_inventoryLines spec namespace action) <->
  action = "deprovision".
Proof.
  rewrite in_spec_inventoryLines, in_spec_optionalLines. split.
  - intros [H|[[H|[H|H]]|H]].
    + cbn [spec_headerLines In] in H. exfalso. absurd_line.
    + tauto.
    + exfalso. destruct H as [_ H]. absurd_line.
    + exfalso. destruct H as [_ H]. absurd_line.
    + cbn [spec_footerLines In] in H. exfalso. absurd_line.
  - intros H. right. left. left. now split.
Qed.

Lemma subdomain_line spec namespace action :
  (exists v, In ("openshift_master_default_subdomain=" +:+ v)
                (spec_inventoryLines spec namespace action)) <->
  OpenshiftMasterDefaultSubdomain spec <> "".
Proof.
  split.
  - intros [v H]. rewrite in_spec_inventoryLines, in_spec_optionalLines in H.
    destruct H as [H|[[H|[H|H]]|H]].
    + cbn [spec_headerLines In] in H. exfalso. absurd_line.
    + exfalso. destruct H as [_ H]. absurd_line.
    + tauto.
    + exfalso. destruct H as [_ H]. absurd_line.
    + cbn [spec_footerLines In] in H. exfalso. absurd_line.
  - intros H. exists (OpenshiftMasterDefaultSubdomain spec).
    rewrite in_spec_inventoryLines, in_spec_optionalLines. right. left. right. left. now split.
Qed.

Lemma hostname_line spec namespace action :
  (exists v, In ("public_master_hostname=" +:+ v)
                (spec_inventoryLines spec namespace action)) <->
  PublicMasterHostname spec <> "".
Proof.
  split.
  - intros [v H]. rewrite in_spec_inventoryLines, in_spec_optionalLines in H.
    destruct H as [H|[[H|[H|H]]|H]].
    + cbn [spec_headerLines In] in H. exfalso. absurd_line.
    + exfalso. destruct H as [_ H]. absurd_line.
    + exfalso. destruct H as [_ H]. absurd_line.
    + tauto.
    + cbn [spec_footerLines In] in H. exfalso. absurd_line.
  - intros H. exists (PublicMasterHostname spec).
    rewrite in_spec_inventoryLines, in_spec_optionalLines. right. left. right. right. now split.
Qed.

Tactic Notation "header_line" integer(n) :=
  apply in_spec_inventoryLines; left; unfold spec_headerLines;
  repeat match goal with
         | H : ?x = "" |- context [decide (?x = "")] => rewrite H
         | H : ?x <> "" |- context [decide (?x = "")] =>
             destruct (decide (x = "")); [congruence|]
         end;
  do n right; left; reflexivity.

(** With values that stay on their line, every line of the specification
    is one line. *)
Lemma spec_inventoryLines_oneLine spec namespace action :
  oneLineInputs spec namespace action ->
  Forall oneLine (spec_inventoryLines spec namespace action).
Proof.
  intros (Hv & Hu & Hn & Hs & Hh & Hns & Ha).
  unfold spec_inventoryLines, spec_headerLines, spec_optionalLines, spec_footerLines.
  repeat (apply Forall_app; split).
  all: repeat match goal with
              | |- context [decide ?P] => destruct (decide P)
              end.
  all: repeat constructor.
  all: unfold oneLine in *; rewrite ?hasChar_append.
  all: repeat match goal with H : hasChar newline _ = false |- _ => rewrite H end.
  all: reflexivity.
Qed.

(** The lines of the file are the lines of the specification, and the empty
    field after the last newline. *)
Lemma Split_spec_inventoryText spec namespace action :
  oneLineInputs spec namespace action ->
  Split (spec_inventoryText spec namespace action) nl =
    spec_inventoryLines spec namespace action ++ [""].
Proof.
  intros H. unfold spec_inventoryText.
  now apply Split_text_of_lines, spec_inventoryLines_oneLine.
Qed.

(** C6, as the code has it.  On a file system without faults
    [generateInventory] succeeds, and the file it names holds exactly the
    text of the specification for (DesiredSpec, namespace, action): the
    world, the random suffix and the rest of the resource do not enter it,
    so any other call with the same three inputs writes the same bytes.
    When no value holds a newline (the fields of the spec, the namespace,
    the action), the lines of the file are the lines of the specification.
    Among them: the four settings carry the given value, or quay.io,
    kubevirt, v1.4 and kubevirt-web-ui when the value is empty;
    preserve_namespace=true is a line exactly when the action is
    deprovision; there is a subdomain line, and a hostname line, exactly
    when the field is not empty, and then it carries the field. *)
Theorem inventory_is_a_function_of_its_inputs
    (instance : KWebUI) (namespace action : string) (w : World) :
  let spec := Spec instance in
  let out := generateInventory instance namespace action w in
  quiet w ->
  exists content,
    fst out = (InventoryFilePattern (fst (unique w)), None) /\
    files (sys (snd out)) !! fst (fst out) = Some content /\
    content = spec_inventoryText spec namespace action /\
    (forall instance' w',
       Spec instance' = spec -> quiet w' ->
       let out' := generateInventory instance' namespace action w' in
       files (sys (snd out')) !! fst (fst out') = Some content) /\
    (oneLineInputs spec namespace action ->
     let lines := Split content nl in
     lines = spec_inventoryLines spec namespace action ++ [""] /\
     In ("apb_action=" +:+ action) lines /\
     (RegistryUrl spec = "" -> In "registry_url=quay.io" lines) /\
     (RegistryUrl spec <> "" -> In ("registry_url=" +:+ RegistryUrl spec) lines) /\
     (RegistryNamespace spec = "" -> In "registry_namespace=kubevirt" lines) /\
     (RegistryNamespace spec <> "" ->
        In ("registry_namespace=" +:+ RegistryNamespace spec) lines) /\
     (Version spec = "" -> In "docker_tag=v1.4" lines) /\
     (Version spec <> "" -> In ("docker_tag=" +:+ Version spec) lines) /\
     (namespace = "" -> In "kubevirt_web_ui_namespace=kubevirt-web-ui" lines) /\
     (namespace <> "" -> In ("kubevirt_web_ui_namespace=" +:+ namespace) lines) /\
     (In "preserve_namespace=true" lines <-> action = "deprovision") /\
     ((exists v, In ("openshift_master_default_subdomain=" +:+ v) lines) <->
        OpenshiftMasterDefaultSubdomain spec <> "") /\
     (OpenshiftMasterDefaultSubdomain spec <> "" ->
        In ("openshift_master_default_subdomain=" +:+
            OpenshiftMasterDefaultSubdomain spec) lines) /\
     ((exists v, In ("public_master_hostname=" +:+ v) lines) <->
        PublicMasterHostname spec <> "") /\
     (PublicMasterHostname spec <> "" ->
        In ("public_master_hostname=" +:+ PublicMasterHostname spec) lines)).
Proof.
  intros spec out Hq.
  exists (spec_inventoryText spec namespace action).
  destruct (generateInventory_quiet instance namespace action w Hq)
    as (w' & E & _ & Hf).
  subst out. rewrite E. cbn [fst snd].
  split; [reflexivity|]. split; [exact Hf|]. split; [reflexivity|]. split.
  { intros instance' w'' Hspec Hq'. cbv zeta.
    destruct (generateInventory_quiet instance' namespace action w'' Hq')
      as (w3 & E' & _ & Hf').
    rewrite E'. cbn [fst snd]. rewrite Hf'. subst spec. now rewrite Hspec. }
  intros Hin. cbv zeta.
  rewrite Split_spec_inventoryText by exact Hin.
  split; [reflexivity|].
  assert (Hl : forall x, In x (spec_inventoryLines spec namespace action) ->
                         In x (spec_inventoryLines spec namespace action ++ [""]))
    by (intros x Hx; apply in_or_app; now left).
  assert (Hr : forall x, x <> "" ->
                 In x (spec_inventoryLines spec namespace action ++ [""]) ->
                 In x (spec_inventoryLines spec namespace action)).
  { intros x Hx Hi. apply in_app_or in Hi as [Hi|[Hi|[]]]; [exact Hi | congruence]. }
  split; [apply Hl; header_line 5|].
  split; [intros H; apply Hl; header_line 6|].
  split; [intros H; apply Hl; header_line 6|].
  split; [intros H; apply Hl; header_line 7|].
  split; [intros H; apply Hl; header_line 7|].
  split; [intros H; apply Hl; header_line 8|].
  split; [intros H; apply Hl; header_line 8|].
  split; [intros H; apply Hl; header_line 9|].
  split; [intros H; apply Hl; header_line 9|].
  split.
  { rewrite <- (preserve_namespace_line spec namespace action).
    split; [apply Hr; discriminate | apply Hl]. }
  split.
  { rewrite <- (subdomain_line spec namespace action). split.
    - intros [v H]. exists v. apply Hr; [discriminate | exact H].
    - intros [v H]. exists v. now apply Hl. }
  split.
  { intros H. apply Hl. rewrite in_spec_inventoryLines, in_spec_optionalLines.
    right. left. right. left. now split. }
  split.
  { rewrite <- (hostname_line spec namespace action). split.
    - intros [v H]. exists v. apply Hr; [discriminate | exact H].
    - intros [v H]. exists v. now apply Hl. }
  intros H. apply Hl. rewrite in_spec_inventoryLines, in_spec_optionalLines.
  right. left. right. right. now split.
Qed.

(** The inventory of a provision with every field left empty. *)
Lemma inventory_is_a_function_of_its_inputs_witness :
  let empty := mkKWebUI "uid-1" (mkKWebUISpec "" "" "" "" "") (mkKWebUIStatus "" "") in
  let w := Scenario.world (Scenario.cluster "" None) [] [] [] in
  let out := generateInventory empty "" "provision" w in
  quiet w /\
  oneLineInputs (Spec empty) "" "provision" /\
  fst out = ("/tmp/inventory_0102030405.ini", None) /\
  files (sys (snd out)) !! "/tmp/inventory_0102030405.ini" =
    Some "[OSEv3:children]
masters

[OSEv3:vars]
platform=openshift
apb_action=provision
registry_url=quay.io
registry_namespace=kubevirt
docker_tag=v1.4
kubevirt_web_ui_namespace=kubevirt-web-ui

[masters]
127.0.0.1 ansible_connection=local
" /\
  In "registry_url=quay.io" (Scenario.linesOfFile (fst (fst out)) (snd out)) /\
  ~ In "preserve_namespace=true" (Scenario.linesOfFile (fst (fst out)) (snd out)).
Proof.
  intros empty w out.
  assert (Hq : quiet w) by constructor.
  assert (Hin : oneLineInputs (Spec empty) "" "provision") by (repeat split; reflexivity).
  destruct (inventory_is_a_function_of_its_inputs empty "" "provision" w Hq)
    as (content & Hout & Hfile & Hcontent & _ & Hlines).
  destruct (Hlines Hin) as (_ & _ & Hurl & _ & _ & _ & _ & _ & _ & _ & Hpreserve & _).
  fold out in Hout, Hfile.
  split; [exact Hq|]. split; [exact Hin|]. split; [rewrite Hout; run|].
  split.
  - assert (Hpath : fst (fst out) = "/tmp/inventory_0102030405.ini")
      by (rewrite Hout; run).
    rewrite Hpath in Hfile. rewrite Hfile, Hcontent. run.
  - unfold Scenario.linesOfFile. rewrite Hfile.
    split; [apply Hurl; reflexivity|].
    intros Hi. apply Hpreserve in Hi. vm_compute in Hi. discriminate Hi.
Defined.

(** C6, as the claim has it, fails for a value that holds a newline: what
    follows the newline is a line of the file in its own right.  Here the
    registry URL of a provision carries two more lines, and the file has a
    line preserve_namespace=true though the action is not deprovision, and
    a subdomain line though the subdomain field is empty. *)
Lemma newline_in_a_value_adds_lines :
  let url := "quay.io" +:+ nl +:+ "preserve_namespace=true" +:+ nl +:+
             "openshift_master_default_subdomain=apps.example.com" in
  let instance := mkKWebUI "uid-1" (mkKWebUISpec "v2.0" url "" "" "")
                    (mkKWebUIStatus "" "") in
  let w := Scenario.world (Scenario.cluster "v2.0" None) [] [] [] in
  let out := generateInventory instance Scenario.ns "provision" w in
  let lines := Scenario.linesOfFile (fst (fst out)) (snd out) in
  quiet w /\
  fst out = ("/tmp/inventory_0102030405.ini", None) /\
  In "apb_action=provision" lines /\
  In "preserve_namespace=true" lines /\
  "provision" <> "deprovision" /\
  OpenshiftMasterDefaultSubdomain (Spec instance) = "" /\
  In "openshift_master_default_subdomain=apps.example.com" lines.
Proof.
  intros url instance w out lines.
  split; [constructor|]. split; [run|].
  split; [in_list|]. split; [in_list|]. split; [discriminate|].
  split; [reflexivity | in_list].
Qed.

(** ** Ephemeral files *)

Lemma removeFile_trace path w :
  trace (snd (removeFile path w)) = trace w ++ [FsRemove path].
Proof.
  unfold removeFile, os_Remove, bind, ret, record, fs_fault, get_sys, put_sys.
  cbn [fst snd]. destruct (pop_fault (fs_faults (emit (FsRemove path) w))) as [[e|] q];
    [reflexivity|].
  cbn [sys set_fs_faults emit].
  destruct (files (sys w) !! path); reflexivity.
Qed.

Lemma removeFile_quiet path w :
  quiet w ->
  quiet (snd (removeFile path w)) /\
  files (sys (snd (removeFile path w))) = delete path (files (sys w)).
Proof.
  intros Hq. destruct (quiet_pop w Hq) as [Hf Hrest].
  unfold removeFile, os_Remove, bind, ret, record, fs_fault, get_sys, put_sys, quiet in *.
  cbn [fst snd fs_faults emit].
  destruct (pop_fault (fs_faults w)) as [f q]. cbn [fst snd] in *. subst f.
  cbn [sys set_fs_faults emit].
  destruct (files (sys w) !! path) eqn:E; cbn [fst snd fs_faults sys files set_sys set_files].
  - now split.
  - split; [exact Hrest|]. symmetry. now apply delete_id.
Qed.

Lemma setup_removes_nothing namespace instance action :
  emits not_a_removal (loginClient namespace) /\
  emits not_a_removal (generateInventory instance namespace action) /\
  (forall i c, emits not_a_removal (runPlaybook i c)).
Proof.
  repeat split; [unfold loginClient | unfold generateInventory | intros; unfold runPlaybook];
    emits_steps; intros p Hp; discriminate Hp.
Qed.

(** When the login and the inventory succeeded, the end of the pass removes
    the inventory file and then the kubeconfig file, whether the playbook
    succeeded or not; nothing before that is a removal, so each file is
    removed once, and unless a removal fails neither file is left. *)
Lemma runPlaybookWithSetup_cleans_up namespace instance action w :
  let login := loginClient namespace w in
  let inventory := generateInventory instance namespace action (snd login) in
  let play := runPlaybook (fst (fst inventory)) (fst (fst login)) (snd inventory) in
  let out := runPlaybookWithSetup namespace instance action w in
  snd (fst login) = None ->
  snd (fst inventory) = None ->
  snd (fst out) = fst play /\
  trace (snd out) =
    trace (snd play) ++ [FsRemove (fst (fst inventory)); FsRemove (fst (fst login))] /\
  (exists evs, trace (snd play) = trace w ++ evs /\ Forall not_a_removal evs) /\
  (quiet (snd play) ->
   files (sys (snd out)) !! fst (fst inventory) = None /\
   files (sys (snd out)) !! fst (fst login) = None).
Proof.
  intros login inventory play out Hlogin Hinv. subst out.
  unfold runPlaybookWithSetup.
  rewrite bind_proj. fold login. cbv zeta. rewrite Hlogin.
  rewrite bind_proj. fold inventory. rewrite Hinv.
  rewrite bind_proj. fold play. rewrite bind_proj, seq_ret. cbn [fst snd].
  split; [reflexivity|]. split; [|split].
  - rewrite !removeFile_trace, <- app_assoc. reflexivity.
  - destruct (setup_removes_nothing namespace instance action) as (Hl & Hi & Hp).
    destruct (Hl w) as (e1 & E1 & F1). fold login in E1.
    destruct (Hi (snd login)) as (e2 & E2 & F2). fold inventory in E2.
    destruct (Hp (fst (fst inventory)) (fst (fst login)) (snd inventory))
      as (e3 & E3 & F3). fold play in E3.
    exists (e1 ++ e2 ++ e3). split.
    + rewrite E3, E2, E1, <- !app_assoc. reflexivity.
    + repeat (apply Forall_app; split); assumption.
  - intros Hq.
    destruct (removeFile_quiet (fst (fst inventory)) (snd play) Hq) as [Hq1 Hf1].
    destruct (removeFile_quiet (fst (fst login)) _ Hq1) as [_ Hf2].
    rewrite Hf2, Hf1. split.
    + destruct (decide (fst (fst login) = fst (fst inventory))) as [->|Hne].
      * apply lookup_delete_eq.
      * rewrite lookup_delete_ne by exact Hne. apply lookup_delete_eq.
    + apply lookup_delete_eq.
Qed.

(** The two early returns of the workflow.  When the login fails nothing is
    removed; when the inventory fails only the kubeconfig file is. *)
Lemma runPlaybookWithSetup_early_returns namespace instance action w :
  let login := loginClient namespace w in
  let inventory := generateInventory instance namespace action (snd login) in
  let out := runPlaybookWithSetup namespace instance action w in
  match snd (fst login), snd (fst inventory) with
  | Some err, _ => out = ((Result_zero, Some err), snd login)
  | None, Some err =>
      fst out = (Result_zero, Some err) /\
      trace (snd out) = trace (snd inventory) ++ [FsRemove (fst (fst login))]
  | None, None => True
  end /\
  exists evs, trace (snd inventory) = trace w ++ evs /\ Forall not_a_removal evs.
Proof.
  intros login inventory out. split.
  - subst out. unfold runPlaybookWithSetup.
    rewrite bind_proj. fold login. cbv zeta.
    destruct (snd (fst login)) as [err|]; [reflexivity|].
    rewrite bind_proj. fold inventory.
    destruct (snd (fst inventory)) as [err|]; [|exact I].
    rewrite seq_ret. cbn [fst snd]. split; [reflexivity | apply removeFile_trace].
  - destruct (setup_removes_nothing namespace instance action) as (Hl & Hi & _).
    destruct (Hl w) as (e1 & E1 & F1). fold login in E1.
    destruct (Hi (snd login)) as (e2 & E2 & F2). fold inventory in E2.
    exists (e1 ++ e2). split.
    + rewrite E2, E1, <- app_assoc. reflexivity.
    + apply Forall_app. now split.
Qed.

(** C4 at work.  The inventory file is created and the last [WriteString]
    fails: [generateInventory] returns before [runPlaybookWithSetup] has
    deferred the removal of the inventory file, so the file is never removed
    and is still there when the pass has ended.  The kubeconfig file, whose
    removal was deferred, is removed once. *)
Example inventory_file_outlives_failed_write :
  let failure := ErrOther "write /tmp/inventory: no space left on device" in
  let w := Scenario.world (Scenario.cluster "v2.0" None) []
             (repeat None 11 ++ [Some failure])
             [Scenario.oc_login; Scenario.oc_project] in
  let out := Reconcile Scenario.r Scenario.request w in
  let inventoryFile := "/tmp/inventory_060708090A.ini" in
  let configFile := "/tmp/config_0102030405" in
  fst out = (Result_zero, Some failure) /\
  files (sys w) !! inventoryFile = None /\
  Scenario.creations inventoryFile (snd out) = 1%nat /\
  Scenario.removals inventoryFile (snd out) = 0%nat /\
  is_Some (files (sys (snd out)) !! inventoryFile) /\
  Scenario.removals configFile (snd out) = 1%nat /\
  files (sys (snd out)) !! configFile = None /\
  Scenario.storedPhase (snd out) = Some PhaseProvisionFailed.
Proof.
  intros failure w out inventoryFile configFile.
  repeat split; try run.
  vm_compute. eexists. reflexivity.
Qed.

(** The same for the kubeconfig file: [oc login] has written it, [oc
    project] fails, and [loginClient] returns before any removal is
    deferred. *)
Example kubeconfig_outlives_failed_login :
  let w := Scenario.world (Scenario.cluster "v2.0" None) [] []
             [Scenario.oc_login; Scenario.oc_project_fails] in
  let out := Reconcile Scenario.r Scenario.request w in
  let configFile := "/tmp/config_0102030405" in
  fst out = (Result_zero, Some (ErrOther "exit status 1")) /\
  files (sys w) !! configFile = None /\
  files (sys (snd out)) !! configFile = Some "kubeconfig" /\
  Scenario.removals configFile (snd out) = 0%nat.
Proof. intros w out configFile. repeat split; run. Qed.

(** * Further properties *)

(** ** [afterLast] and the deployed tag *)

(** X1.  [afterLast] reads the tag back: for an image reference made of
    anything, a colon and a tag without colon, it returns that tag (the
    empty string for an empty tag).  The same holds for any one-character
    separator. *)
Theorem afterLast_reads_the_tag (c : ascii) (repo tag : string) :
  hasChar c tag = false ->
  afterLast (repo +:+ String c tag) (String c "") = tag.
Proof. apply afterLast_append. Qed.

Lemma afterLast_reads_the_tag_witness :
  hasChar ":" "1.4.0" = false /\
  afterLast ("registry:5000/kubevirt/kubevirt-web-ui" +:+ String ":" "1.4.0") ":" = "1.4.0".
Proof.
  split; [reflexivity|].
  apply (afterLast_reads_the_tag ":" "registry:5000/kubevirt/kubevirt-web-ui" "1.4.0").
  reflexivity.
Defined.

(** X2.  What [afterLast] returns for a one-character separator never
    contains the separator, is empty when the separator does not occur, and
    is otherwise what follows its last occurrence: the value is the result
    with something ending in the separator before it. *)
Theorem afterLast_is_the_last_field (c : ascii) (value : string) :
  let result := afterLast value (String c "") in
  hasChar c result = false /\
  (hasChar c value = false -> result = "") /\
  (hasChar c value = true -> exists pre, value = pre +:+ String c result).
Proof.
  intros result. subst result.
  destruct (split_at_last c value) as [H|(pre & tag & -> & H)].
  - assert (E : afterLast value (String c "") = "").
    { unfold afterLast, strings.LastIndex. rewrite LastIndex_at_absent by exact H.
      reflexivity. }
    rewrite E. split; [reflexivity|]. split; [reflexivity|]. intros Hn. congruence.
  - rewrite afterLast_append by exact H.
    split; [exact H|]. split.
    + intros Hn. rewrite hasChar_after_sep in Hn. discriminate Hn.
    + intros _. now exists pre.
Qed.

Lemma afterLast_is_the_last_field_witness :
  hasChar ":" "kubevirt-web-ui" = false /\
  afterLast "kubevirt-web-ui" ":" = "" /\
  hasChar ":" "a:b:c" = true /\
  exists pre, "a:b:c" = pre +:+ String ":" (afterLast "a:b:c" ":").
Proof.
  destruct (afterLast_is_the_last_field ":" "kubevirt-web-ui") as (_ & H1 & _).
  destruct (afterLast_is_the_last_field ":" "a:b:c") as (_ & _ & H2).
  split; [reflexivity|]. split; [apply H1; reflexivity|].
  split; [reflexivity|]. apply H2. reflexivity.
Defined.

(** ** More of the decision on an existing deployment *)

Lemma matchingContainer_first before c after :
  Forall (fun x => Name x <> WebUIContainerName) before ->
  Name c = WebUIContainerName ->
  matchingContainer (before ++ c :: after) = Some c.
Proof.
  intros Hb Hc. unfold matchingContainer.
  induction Hb as [|x before Hx _ IH]; cbn [List.app List.find].
  - rewrite bool_decide_eq_true_2 by exact Hc. reflexivity.
  - rewrite bool_decide_eq_false_2 by exact Hx. exact IH.
Qed.

(** X3.  Only the first container named "console" is looked at: the
    containers before it and everything after it, other containers named
    "console" included, do not enter the decision. *)
Theorem only_the_first_console_container_counts
    (r : ReconcileKWebUI) (request : Request) (instance : KWebUI)
    (refs refs' : list OwnerReference) (before after : list Container)
    (c : Container) (w : World) :
  Forall (fun x => Name x <> WebUIContainerName) before ->
  Name c = WebUIContainerName ->
  existingVersionOf (before ++ c :: after) = existingVersionOf [c] /\
  reconcileExistingDeployment r request instance
    (mkDeployment refs (before ++ c :: after)) w =
  reconcileExistingDeployment r request instance (mkDeployment refs' [c]) w.
Proof.
  intros Hb Hc.
  assert (E : existingVersionOf (before ++ c :: after) = existingVersionOf [c]).
  { rewrite !existingVersionOf_matching.
    rewrite (matchingContainer_first before c after Hb Hc).
    pose proof (matchingContainer_first [] c [] (List.Forall_nil _) Hc) as E1.
    cbn [List.app] in E1. now rewrite E1. }
  split; [exact E|].
  unfold reconcileExistingDeployment. cbn [Containers]. now rewrite E.
Qed.

Lemma only_the_first_console_container_counts_witness :
  let proxy := mkContainer "proxy" "quay.io/kubevirt/proxy:v9" in
  let c := mkContainer "console" "quay.io/kubevirt/kubevirt-web-ui:v1.4" in
  let other := mkContainer "console" "quay.io/kubevirt/kubevirt-web-ui:v2.0" in
  existingVersionOf ([proxy] ++ c :: [other]) = inr "1.4".
Proof.
  intros proxy c other.
  destruct (only_the_first_console_container_counts Scenario.r Scenario.request
              (Scenario.cr "1.4") [] [] [proxy] [other] c
              (Scenario.world (Scenario.cluster "1.4" None) [] [] [])) as [E _].
  - repeat constructor. vm_compute. discriminate.
  - reflexivity.
  - rewrite E. reflexivity.
Defined.

Lemma TrimPrefix_not_prefixed v :
  strings.HasPrefix v "v" = false -> strings.TrimPrefix v "v" = v.
Proof. intros H. unfold strings.TrimPrefix. now rewrite H. Qed.

Lemma hasChar_cons c a s :
  c <> a -> hasChar c (String a s) = hasChar c s.
Proof. intros H. cbn [hasChar]. now destruct (Ascii.ascii_dec c a). Qed.

(** X4.  A desired version written without the leading "v" (and without a
    colon) is recognised in the deployment that runs it, whether the image
    is tagged with the version as it is or with a "v" before it: the pass
    only writes status PROVISIONED with the nothing-to-do message, and
    returns no error. *)
Theorem plain_version_matches_its_deployment
    (r : ReconcileKWebUI) (request : Request) (instance : KWebUI)
    (deployment : Deployment) (c : Container) (repo : string) (w : World) :
  let v := Version (Spec instance) in
  matchingContainer (Containers deployment) = Some c ->
  v <> "" ->
  hasChar ":" v = false ->
  strings.HasPrefix v "v" = false ->
  Image c = repo +:+ String ":" v \/ Image c = repo +:+ String ":" (String "v" v) ->
  reconcileExistingDeployment r request instance deployment w =
    ((Result_zero, None),
     snd (updateStatus r request PhaseProvisioned
            ("Existing version conform the requested one: " +:+ v +:+
             ". Nothing to do.") w)).
Proof.
  intros v Hc Hne Hcolon Hpre Himg.
  assert (Hn : normalizedTag c = v).
  { unfold normalizedTag, imageTag. destruct Himg as [-> | ->].
    - rewrite afterLast_append by exact Hcolon. now apply TrimPrefix_not_prefixed.
    - rewrite afterLast_append.
      + apply TrimPrefix_v.
      + rewrite hasChar_cons by discriminate. exact Hcolon. }
  rewrite <- Hn. subst v.
  apply noop_when_desired_is_the_stripped_tag; [assumption | congruence | congruence].
Qed.

Lemma plain_version_matches_its_deployment_witness :
  let c := mkContainer "console" "quay.io/kubevirt/kubevirt-web-ui:v1.4" in
  let w := Scenario.world
             (Scenario.cluster "1.4" (Some "quay.io/kubevirt/kubevirt-web-ui:v1.4"))
             [] [] [] in
  let out := reconcileExistingDeployment Scenario.r Scenario.request
               (Scenario.cr "1.4") (mkDeployment [] [c]) w in
  fst out = (Result_zero, None) /\
  Scenario.storedPhase (snd out) = Some PhaseProvisioned /\
  Scenario.playbookRuns (snd out) = 0%nat.
Proof.
  intros c w out.
  assert (E := plain_version_matches_its_deployment Scenario.r Scenario.request
                 (Scenario.cr "1.4") (mkDeployment [] [c]) c
                 "quay.io/kubevirt/kubevirt-web-ui" w).
  cbv zeta in E. fold out in E.
  rewrite E.
  - repeat split; run.
  - reflexivity.
  - vm_compute; discriminate.
  - reflexivity.
  - reflexivity.
  - right. reflexivity.
Defined.

(** X5.  An empty desired version over a deployment with a readable
    version is a deprovision and nothing else: the pass is [deprovision]
    and returns what it returns.  With values that each stay on their line
    (no field of the spec and not the namespace holds a newline) it records
    no provisioning event: no write puts a line [apb_action=provision] into
    the inventory, and no status write has a provision phase. *)
Theorem empty_desired_version_only_deprovisions
    (r : ReconcileKWebUI) (request : Request) (instance : KWebUI)
    (deployment : Deployment) (c : Container) (w : World) :
  matchingContainer (Containers deployment) = Some c ->
  normalizedTag c <> "" ->
  Version (Spec instance) = "" ->
  let out := reconcileExistingDeployment r request instance deployment w in
  out = deprovision r request instance w /\
  (oneLineInputs (Spec instance) (ReqNamespace request) "deprovision" ->
   exists evs, trace (snd out) = trace w ++ evs /\
               Forall (fun e => ~ provisioning e) evs).
Proof.
  intros Hc Hne Hv out.
  assert (E : out = deprovision r request instance w).
  { subst out. rewrite (reconcileExistingDeployment_readable _ _ _ _ c) by assumption.
    destruct (decide (Version (Spec instance) = normalizedTag c)); [congruence|].
    destruct (decide (Version (Spec instance) = "")); [reflexivity|congruence]. }
  split; [exact E|]. intros Hin. rewrite E. now apply deprovision_is_no_provision.
Qed.

Lemma empty_desired_version_only_deprovisions_witness :
  let image := "quay.io/kubevirt/kubevirt-web-ui:v1.4" in
  let w := Scenario.world (Scenario.cluster "" (Some image)) [] []
             [Scenario.oc_login; Scenario.oc_project; Scenario.playbook_deprovisions] in
  let out := reconcileExistingDeployment Scenario.r Scenario.request
               (Scenario.cr "") (Scenario.console image) w in
  fst out = (Result_zero, None) /\
  Scenario.playbookRuns (snd out) = 1%nat /\
  Scenario.storedPhase (snd out) = Some PhaseDeprovisioned /\
  deployments (sys (snd out)) !! (Scenario.ns, "console") = None /\
  oneLineInputs (Spec (Scenario.cr "")) Scenario.ns "deprovision" /\
  exists evs, trace (snd out) = trace w ++ evs /\
              Forall (fun e => ~ provisioning e) evs.
Proof.
  intros image w out.
  assert (Hin : oneLineInputs (Spec (Scenario.cr "")) Scenario.ns "deprovision")
    by (repeat split; reflexivity).
  destruct (empty_desired_version_only_deprovisions Scenario.r Scenario.request
              (Scenario.cr "") (Scenario.console image)
              (mkContainer "console" image) w) as [E Hno].
  - reflexivity.
  - vm_compute; discriminate.
  - reflexivity.
  - fold out in E, Hno. split; [rewrite E; run|]. split; [rewrite E; run|].
    split; [rewrite E; run|]. split; [rewrite E; run|].
    split; [exact Hin | exact (Hno Hin)].
Defined.

(** Why the values must stay on their line: a registry URL that holds a
    newline puts a line [apb_action=provision] into the inventory of a
    deprovision. *)
Example field_value_can_ask_for_provision :
  let url := "quay.io" +:+ nl +:+ "apb_action=provision" in
  let instance := mkKWebUI "uid-1" (mkKWebUISpec "" url "" "" "") (mkKWebUIStatus "" "") in
  let w := Scenario.world (Scenario.cluster "" None) [] [] [] in
  let out := generateInventory instance Scenario.ns "deprovision" w in
  snd (fst out) = None /\
  In "apb_action=deprovision" (Scenario.linesOfFile (fst (fst out)) (snd out)) /\
  In "apb_action=provision" (Scenario.linesOfFile (fst (fst out)) (snd out)) /\
  Exists provisioning (trace (snd out)).
Proof.
  intros url instance w out. split; [run|].
  split; [in_list|]. split; [in_list|].
  apply Exists_exists.
  exists (FsWrite "/tmp/inventory_0102030405.ini" ("registry_url=" +:+ url +:+ nl)).
  split; in_list.
Qed.

(** ** The pass as a whole *)

Lemma client_Get_KWebUI_run key w :
  snd (client_Get_KWebUI key w) =
  mkWorld (sys w) (inClusterConfig w) (environ w) (tail (api_faults w))
          (fs_faults w) (entropy w) (procs w)
          (trace w ++ [ApiGet KindKWebUI key]).
Proof.
  destruct w as [s icc env af ff en ps tr]. unfold_client.
  destruct af as [|[e|] af]; project;
    destruct (kwebuis s !! key) as [d|] eqn:E; project; reflexivity.
Qed.

(** X6.  When the fetch of the resource fails the pass ends at once, having
    made that one client call and no status write: it returns no error if
    the resource is not found (it has been deleted) and the fetch error
    otherwise. *)
Theorem failed_resource_fetch_ends_the_pass
    (r : ReconcileKWebUI) (request : Request) (w : World) (err : error) :
  let key := Request_NamespacedName request in
  fst (client_Get_KWebUI key w) = inl err ->
  let out := Reconcile r request w in
  fst out = (mkResult false, if IsNotFound err then None else Some err) /\
  sys (snd out) = sys w /\
  trace (snd out) = trace w ++ [ApiGet KindKWebUI key].
Proof.
  intros key Hget out. subst out. rewrite Reconcile_run. cbv zeta.
  fold key. rewrite Hget. cbn [fst snd].
  rewrite client_Get_KWebUI_run. project. now repeat split.
Qed.

(** The resource has been deleted; another resource is still stored. *)
Lemma failed_resource_fetch_ends_the_pass_witness :
  let gone := mkRequest Scenario.ns "deleted" in
  let w := Scenario.world (Scenario.cluster "v2.0" None) [] [] [] in
  let out := Reconcile Scenario.r gone w in
  fst (client_Get_KWebUI (Request_NamespacedName gone) w) = inl ErrNotFound /\
  fst out = (mkResult false, None) /\
  trace (snd out) = [ApiGet KindKWebUI (Scenario.ns, "deleted")].
Proof.
  intros gone w out.
  assert (Hget : fst (client_Get_KWebUI (Request_NamespacedName gone) w) = inl ErrNotFound)
    by run.
  destruct (failed_resource_fetch_ends_the_pass Scenario.r gone w ErrNotFound Hget)
    as (Hres & _ & Htrace).
  split; [exact Hget|]. split; [exact Hres|]. subst out. rewrite Htrace. reflexivity.
Defined.

(** X7.  When the resource is there and the fetch of the console deployment
    fails: not found means nothing is deployed, and the pass goes on as
    [freshProvision]; any other error is reported by a status write of
    OTHER_ERROR and returned, and nothing else is done. *)
Theorem failed_deployment_fetch
    (r : ReconcileKWebUI) (request : Request) (w : World)
    (instance : KWebUI) (err : error) :
  let got := client_Get_KWebUI (Request_NamespacedName request) w in
  let dep := client_Get_Deployment (ReqNamespace request, "console") (snd got) in
  fst got = inr instance ->
  fst dep = inl err ->
  let out := Reconcile r request w in
  if IsNotFound err then out = freshProvision r request instance (snd dep)
  else
    let msg := "Failed to retrieve kubevirt-web-ui Deployment object." in
    fst out = (mkResult false, Some err) /\
    snd out = snd (updateStatus r request PhaseOtherError msg (snd dep)) /\
    trace (snd out) =
      trace w ++ [ApiGet KindKWebUI (Request_NamespacedName request);
                  ApiGet KindDeployment (ReqNamespace request, "console")] ++
      statusCalls request PhaseOtherError msg (snd dep).
Proof.
  intros got dep Hgot Hdep out. subst out. rewrite Reconcile_run. cbv zeta.
  fold got. rewrite Hgot. fold dep. rewrite Hdep.
  destruct (IsNotFound err); [reflexivity|].
  cbn [fst snd]. split; [reflexivity|]. split; [reflexivity|].
  rewrite updateStatus_run. project.
  subst dep. rewrite client_Get_Deployment_run. project.
  subst got. rewrite client_Get_KWebUI_run. project.
  now rewrite <- !app_assoc.
Qed.

Lemma failed_deployment_fetch_witness :
  let failure := ErrOther "etcdserver: request timed out" in
  let w := Scenario.world (Scenario.cluster "v2.0" None) [None; Some failure] []
             [Scenario.oc_login; Scenario.oc_project; Scenario.playbook_provisions "v2.0"] in
  let out := Reconcile Scenario.r Scenario.request w in
  fst out = (mkResult false, Some failure) /\
  Scenario.storedPhase (snd out) = Some PhaseOtherError /\
  Scenario.playbookRuns (snd out) = 0%nat.
Proof.
  intros failure w out.
  pose proof (failed_deployment_fetch Scenario.r Scenario.request w
                (Scenario.cr "v2.0") failure) as H.
  cbv zeta in H.
  destruct H as (Hres & Hw & _); [run | run |].
  subst out. split; [exact Hres|]. rewrite Hw. split; run.
Defined.

Lemma freshProvision_result r request instance w :
  fst (fst (freshProvision r request instance w)) = Result_zero.
Proof.
  destruct (decide (Version (Spec instance) = "")) as [Hv|Hv].
  - now rewrite freshProvision_no_version.
  - rewrite freshProvision_run by exact Hv. cbv zeta.
    now destruct (snd (fst (runPlaybookWithSetup _ _ _ _))).
Qed.

Lemma deprovision_result r request instance w :
  fst (fst (deprovision r request instance w)) = Result_zero.
Proof.
  rewrite deprovision_run. cbv zeta.
  now destruct (snd (fst (runPlaybookWithSetup _ _ _ _))).
Qed.

Lemma reconcileExistingDeployment_result r request instance deployment w :
  fst (fst (reconcileExistingDeployment r request instance deployment w)) = Result_zero.
Proof.
  unfold reconcileExistingDeployment.
  destruct (existingVersionOf (Containers deployment)) as [err|v]; [reflexivity|].
  destruct (decide (v = "")); [now rewrite seq_ret|].
  destruct (decide (Version (Spec instance) = v)); [now rewrite seq_ret|].
  destruct (decide (Version (Spec instance) = "")); [apply deprovision_result|].
  rewrite bind_proj.
  destruct (snd (fst (deprovision r request instance w)));
    [reflexivity | apply freshProvision_result].
Qed.

(** X8.  Whatever happens in a pass, the [reconcile.Result] it returns is
    the zero value: the controller never asks for a requeue or a delay
    itself, so a pass is repeated only when it returns an error. *)
Theorem Reconcile_result_is_always_zero
    (r : ReconcileKWebUI) (request : Request) (w : World) :
  fst (fst (Reconcile r request w)) = mkResult false.
Proof.
  rewrite Reconcile_run. cbv zeta.
  destruct (fst (client_Get_KWebUI _ w)) as [err|instance]; [reflexivity|].
  destruct (fst (client_Get_Deployment _ _)) as [err|d].
  - destruct (IsNotFound err); [apply freshProvision_result | reflexivity].
  - apply reconcileExistingDeployment_result.
Qed.

Ltac own_call :=
  cbn [ownClientCall Request_NamespacedName]; try exact I; auto.

Lemma freshProvision_own_calls r request instance :
  emits (ownClientCall request) (freshProvision r request instance).
Proof. unfold freshProvision. emits_steps; own_call. Qed.

Lemma deprovision_own_calls r request instance :
  emits (ownClientCall request) (deprovision r request instance).
Proof. unfold deprovision. emits_steps; own_call. Qed.

Lemma reconcileExistingDeployment_own_calls r request instance deployment :
  emits (ownClientCall request)
        (reconcileExistingDeployment r request instance deployment).
Proof.
  unfold reconcileExistingDeployment.
  emits_steps; own_call;
    auto using freshProvision_own_calls, deprovision_own_calls.
Qed.

Lemma Reconcile_own_calls r request :
  emits (ownClientCall request) (Reconcile r request).
Proof.
  unfold Reconcile.
  emits_steps; own_call;
    auto using freshProvision_own_calls, reconcileExistingDeployment_own_calls.
Qed.

(** X9.  Of the cluster a pass touches two objects only: every fetch it
    makes is of the requested resource or of the deployment "console" in
    the request's namespace, every update is of the requested resource, and
    no deployment is ever updated. *)
Theorem pass_touches_its_own_objects_only
    (r : ReconcileKWebUI) (request : Request) (w : World) :
  exists evs,
    trace (snd (Reconcile r request w)) = trace w ++ evs /\
    Forall (ownClientCall request) evs /\
    Forall (fun e => forall key d, e <> ApiUpdate KindDeployment key (ObjDeployment d)) evs.
Proof.
  destruct (Reconcile_own_calls r request w) as (evs & E & F).
  exists evs. split; [exact E|]. split; [exact F|].
  eapply Forall_impl; [exact F|].
  intros e He key d ->. cbn in He. exact He.
Qed.

(** ** More of provision and deprovision *)

(** X10.  Nothing deployed and nothing wanted: when the resource is
    fetched, the console deployment is not found and the desired version is
    empty, the pass writes status NOT_DEPLOYED and returns no error; its
    only calls are the two fetches and that status write, so no file is
    touched and no process run. *)
Theorem nothing_deployed_nothing_wanted
    (r : ReconcileKWebUI) (request : Request) (w : World)
    (instance : KWebUI) (err : error) :
  let got := client_Get_KWebUI (Request_NamespacedName request) w in
  let dep := client_Get_Deployment (ReqNamespace request, "console") (snd got) in
  fst got = inr instance ->
  fst dep = inl err ->
  IsNotFound err = true ->
  Version (Spec instance) = "" ->
  let out := Reconcile r request w in
  fst out = (mkResult false, None) /\
  snd out = snd (updateStatus r request PhaseNoDeployment "" (snd dep)) /\
  trace (snd out) =
    trace w ++ [ApiGet KindKWebUI (Request_NamespacedName request);
                ApiGet KindDeployment (ReqNamespace request, "console")] ++
    statusCalls request PhaseNoDeployment "" (snd dep).
Proof.
  intros got dep Hgot Hdep Hnf Hv out. subst out. rewrite Reconcile_run. cbv zeta.
  fold got. rewrite Hgot. fold dep. rewrite Hdep, Hnf.
  rewrite freshProvision_no_version by exact Hv.
  cbn [fst snd]. split; [reflexivity|]. split; [reflexivity|].
  rewrite updateStatus_run. project.
  subst dep. rewrite client_Get_Deployment_run. project.
  subst got. rewrite client_Get_KWebUI_run. project.
  now rewrite <- !app_assoc.
Qed.

Lemma nothing_deployed_nothing_wanted_witness :
  let w := Scenario.world (Scenario.cluster "" None) [] []
             [Scenario.oc_login; Scenario.oc_project; Scenario.playbook_provisions "v1.4"] in
  let out := Reconcile Scenario.r Scenario.request w in
  fst out = (mkResult false, None) /\
  Scenario.storedPhase (snd out) = Some PhaseNoDeployment /\
  length (trace (snd out)) = 4%nat /\
  length (procs (snd out)) = 3%nat.
Proof.
  intros w out.
  pose proof (nothing_deployed_nothing_wanted Scenario.r Scenario.request w
                (Scenario.cr "") ErrNotFound) as H.
  cbv zeta in H.
  destruct H as (Hres & Hw & Ht); [run | run | reflexivity | reflexivity |].
  subst out. split; [exact Hres|]. split; [rewrite Hw; run|].
  split; [rewrite Ht; run | rewrite Hw; run].
Defined.

(** X11.  When the provisioning workflow fails, [freshProvision] returns
    its error, and all it does after the workflow is one status write of
    PROVISION_FAILED: the ownership link is not attempted (no fetch of the
    deployment follows). *)
Theorem failed_provision_is_reported
    (r : ReconcileKWebUI) (request : Request) (instance : KWebUI) (w : World)
    (err : error) :
  Version (Spec instance) <> "" ->
  let w1 := snd (updateStatus r request PhaseFreshProvision
                   ("Target version: " +:+ Version (Spec instance)) w) in
  let run := runPlaybookWithSetup (ReqNamespace request) instance "provision" w1 in
  snd (fst run) = Some err ->
  let out := freshProvision r request instance w in
  fst out = (mkResult false, Some err) /\
  trace (snd out) =
    trace (snd run) ++ statusCalls request PhaseProvisionFailed msgProvisionFailed (snd run) /\
  deployments (sys (snd out)) = deployments (sys (snd run)) /\
  files (sys (snd out)) = files (sys (snd run)) /\
  match landing request (snd run) with
  | Some o =>
      kwebuis (sys (snd out)) !! Request_NamespacedName request =
        Some (mkKWebUI (UID o) (Spec o)
                (mkKWebUIStatus PhaseProvisionFailed msgProvisionFailed))
  | None => sys (snd out) = sys (snd run)
  end.
Proof.
  intros Hv w1 run Hrun out. subst out.
  rewrite freshProvision_run by exact Hv. cbv zeta. fold w1. fold run. rewrite Hrun.
  cbn [fst snd]. rewrite updateStatus_run. project.
  split; [reflexivity|]. split; [reflexivity|].
  split; [apply statusSys_deployments|]. split; [apply statusSys_files|].
  destruct (landing request (snd run)) as [o|] eqn:E.
  - now apply statusSys_landed.
  - unfold statusSys. now rewrite E.
Qed.

Lemma failed_provision_is_reported_witness :
  let w := Scenario.world (Scenario.cluster "v2.0" None) [] []
             [Scenario.oc_login; Scenario.oc_project; Scenario.playbook_fails] in
  let out := freshProvision Scenario.r Scenario.request (Scenario.cr "v2.0") w in
  fst out = (mkResult false, Some (ErrOther "exit status 2")) /\
  Scenario.storedPhase (snd out) = Some PhaseProvisionFailed /\
  List.filter (fun e => match e with ApiGet KindDeployment _ => true | _ => false end)
              (trace (snd out)) = [].
Proof.
  intros w out.
  destruct (failed_provision_is_reported Scenario.r Scenario.request
              (Scenario.cr "v2.0") w (ErrOther "exit status 2")) as (Hres & _).
  - vm_compute; discriminate.
  - run.
  - subst out. split; [exact Hres|]. split; run.
Defined.

(** X12.  A deprovision is bracketed by status writes: first
    DEPROVISION_STARTED, then the workflow, then DEPROVISIONED when the
    workflow succeeded and DEPROVISION_FAILED when it failed; the error
    returned is the workflow's. *)
Theorem deprovision_is_bracketed_by_status
    (r : ReconcileKWebUI) (request : Request) (instance : KWebUI) (w : World) :
  let w1 := snd (updateStatus r request PhaseDeprovision "" w) in
  let run := runPlaybookWithSetup (ReqNamespace request) instance "deprovision" w1 in
  let out := deprovision r request instance w in
  let final :=
    match snd (fst run) with
    | None => statusCalls request PhaseDeprovisioned "Deprovision finished." (snd run)
    | Some _ => statusCalls request PhaseDeprovisionFailed msgDeprovisionFailed (snd run)
    end in
  fst out = (mkResult false, snd (fst run)) /\
  exists workflow,
    trace (snd run) = trace w1 ++ workflow /\
    trace (snd out) =
      trace w ++ statusCalls request PhaseDeprovision "" w ++ workflow ++ final.
Proof.
  intros w1 run out final. subst out final.
  rewrite deprovision_run. cbv zeta. fold w1. fold run.
  destruct (runPlaybookWithSetup_extends (ReqNamespace request) instance
              "deprovision" w1) as (workflow & E & _). fold run in E.
  assert (E1 : trace w1 = trace w ++ statusCalls request PhaseDeprovision "" w)
    by (subst w1; now rewrite updateStatus_run).
  split.
  - now destruct (snd (fst run)).
  - exists workflow. split; [exact E|].
    destruct (snd (fst run)); cbn [fst snd]; rewrite updateStatus_run; project;
      rewrite E, E1, <- !app_assoc; reflexivity.
Qed.

(** ** More of the workflow *)

Lemma setup_runs_oc_only namespace instance action :
  emits not_the_playbook (loginClient namespace) /\
  emits not_the_playbook (generateInventory instance namespace action).
Proof.
  split; [unfold loginClient | unfold generateInventory];
    emits_steps; cbn [not_the_playbook inv_cmd]; auto.
Qed.

(** X14.  The playbook runs only after a successful login and a
    successfully generated inventory: unless both succeeded, every child
    process of the workflow is an [oc], and the workflow returns an
    error. *)
Theorem playbook_needs_login_and_inventory
    (namespace : string) (instance : KWebUI) (action : string) (w : World) :
  let login := loginClient namespace w in
  let inventory := generateInventory instance namespace action (snd login) in
  let out := runPlaybookWithSetup namespace instance action w in
  (snd (fst login) = None /\ snd (fst inventory) = None) \/
  (snd (fst out) <> None /\
   exists evs, trace (snd out) = trace w ++ evs /\ Forall not_the_playbook evs).
Proof.
  intros login inventory out.
  destruct (runPlaybookWithSetup_early_returns namespace instance action w) as [H _].
  fold login inventory out in H.
  destruct (setup_runs_oc_only namespace instance action) as [Hl Hi].
  destruct (Hl w) as (e1 & E1 & F1). fold login in E1.
  destruct (Hi (snd login)) as (e2 & E2 & F2). fold inventory in E2.
  destruct (snd (fst login)) as [err|].
  - right. rewrite H. cbn [fst snd]. split; [discriminate|]. now exists e1.
  - destruct (snd (fst inventory)) as [err|]; [|now left].
    right. destruct H as [Hres Ht]. rewrite Hres. cbn [snd].
    split; [discriminate|].
    exists (e1 ++ e2 ++ [FsRemove (fst (fst login))]). split.
    + rewrite Ht, E2, E1, <- !app_assoc. reflexivity.
    + repeat (apply Forall_app; split); try assumption.
      repeat constructor.
Qed.

Lemma runCommand_run cmd args env anonymArgs w :
  fst (runCommand cmd args env anonymArgs w) = exitOf (procs w) /\
  trace (snd (runCommand cmd args env anonymArgs w)) =
    trace w ++ [Exec (mkInvocation cmd args (environ w ++ env))] /\
  fs_faults (snd (runCommand cmd args env anonymArgs w)) = fs_faults w.
Proof.
  destruct w as [s icc e af ff en ps tr].
  unfold runCommand, next_process, bind, ret, record, get_sys, put_sys, emit,
    set_sys, set_procs.
  cbn [procs environ trace sys fs_faults fst snd].
  destruct ps as [|[err|f [x|]] ps]; cbn; repeat split; reflexivity.
Qed.

(** X13.  A workflow whose login and inventory succeeded runs the playbook
    once, after them, as [ansible-playbook -i <inventory> <playbook> -vvv]
    with KUBECONFIG set to the kubeconfig file of the login; it returns how
    the playbook ended; and whether that was a success or not it then
    removes the inventory file and the kubeconfig file, in this order and
    once each.  Unless a removal fails, neither file is left. *)
Theorem workflow_runs_the_playbook_then_cleans_up
    (namespace : string) (instance : KWebUI) (action : string) (w : World) :
  let login := loginClient namespace w in
  let inventory := generateInventory instance namespace action (snd login) in
  let configFile := fst (fst login) in
  let inventoryFile := fst (fst inventory) in
  let out := runPlaybookWithSetup namespace instance action w in
  let playbook :=
    mkInvocation "ansible-playbook" ["-i"; inventoryFile; PlaybookFile; "-vvv"]
                 (environ (snd inventory) ++ ["KUBECONFIG=" +:+ configFile]) in
  snd (fst login) = None ->
  snd (fst inventory) = None ->
  fst out = (mkResult false, exitOf (procs (snd inventory))) /\
  trace (snd out) =
    trace (snd inventory) ++ [Exec playbook; FsRemove inventoryFile; FsRemove configFile] /\
  (exists setup,
     trace (snd inventory) = trace w ++ setup /\
     Forall not_a_removal setup /\ Forall not_the_playbook setup) /\
  (quiet (snd inventory) ->
   files (sys (snd out)) !! inventoryFile = None /\
   files (sys (snd out)) !! configFile = None).
Proof.
  intros login inventory configFile inventoryFile out playbook Hlogin Hinv.
  destruct (runPlaybookWithSetup_cleans_up namespace instance action w Hlogin Hinv)
    as (Hres & Htrace & _ & Hfiles).
  fold login inventory configFile inventoryFile out in Hres, Htrace, Hfiles.
  destruct (runCommand_run "ansible-playbook"
              ["-i"; inventoryFile; PlaybookFile; "-vvv"]
              ["KUBECONFIG=" +:+ configFile]
              ["-i"; inventoryFile; PlaybookFile; "-vvv"] (snd inventory))
    as (Hexit & Hplay & Hquiet).
  change (runCommand _ _ _ _ (snd inventory))
    with (runPlaybook inventoryFile configFile (snd inventory)) in Hexit, Hplay, Hquiet.
  split; [|split; [|split]].
  - rewrite <- Hexit, <- Hres.
    pose proof (runPlaybookWithSetup_result namespace instance action w) as Hz.
    fold out in Hz. destruct (fst out) as [res err]. cbn [fst snd] in *. now subst res.
  - rewrite Htrace, Hplay, <- app_assoc. reflexivity.
  - destruct (setup_removes_nothing namespace instance action) as (Hl & Hi & _).
    destruct (setup_runs_oc_only namespace instance action) as (Hl' & Hi').
    destruct (Hl w) as (e1 & E1 & F1). fold login in E1.
    destruct (Hi (snd login)) as (e2 & E2 & F2). fold inventory in E2.
    destruct (Hl' w) as (e1' & E1' & F1'). fold login in E1'.
    destruct (Hi' (snd login)) as (e2' & E2' & F2'). fold inventory in E2'.
    rewrite E1 in E1'. apply app_inv_head in E1'. subst e1'.
    rewrite E2 in E2'. apply app_inv_head in E2'. subst e2'.
    exists (e1 ++ e2). split; [rewrite E2, E1, <- app_assoc; reflexivity|].
    split; apply Forall_app; now split.
  - intros Hq. apply Hfiles. unfold quiet in *. now rewrite Hquiet.
Qed.

(** The workflow with a playbook that fails. *)
Lemma workflow_runs_the_playbook_then_cleans_up_witness :
  let w := Scenario.world (Scenario.cluster "v2.0" None) [] []
             [Scenario.oc_login; Scenario.oc_project; Scenario.playbook_fails] in
  let out := runPlaybookWithSetup Scenario.ns (Scenario.cr "v2.0") "provision" w in
  snd (fst out) = Some (ErrOther "exit status 2") /\
  Scenario.playbookRuns (snd out) = 1%nat /\
  Scenario.removals "/tmp/inventory_060708090A.ini" (snd out) = 1%nat /\
  Scenario.removals "/tmp/config_0102030405" (snd out) = 1%nat /\
  files (sys (snd out)) !! "/tmp/inventory_060708090A.ini" = None /\
  files (sys (snd out)) !! "/tmp/config_0102030405" = None.
Proof.
  intros w out.
  pose proof (workflow_runs_the_playbook_then_cleans_up Scenario.ns
                (Scenario.cr "v2.0") "provision" w) as H.
  cbv zeta in H. destruct H as (Hres & _ & _ & Hfiles); [run | run |].
  destruct Hfiles as [Hi Hc]; [vm_compute; constructor|].
  subst out. split; [rewrite Hres; run|]. split; [run|]. split; [run|]. split; [run|].
  split; [exact Hi | exact Hc].
Defined.


Lemma unique_frame w :
  procs (snd (unique w)) = procs w /\
  environ (snd (unique w)) = environ w /\
  trace (snd (unique w)) = trace w.
Proof.
  unfold unique, rand_Read, bind, ret.
  destruct (entropy w) as [|[b|] q]; now repeat split.
Qed.

Lemma runCommand_frame cmd args env anonymArgs w :
  fst (runCommand cmd args env anonymArgs w) = exitOf (procs w) /\
  trace (snd (runCommand cmd args env anonymArgs w)) =
    trace w ++ [Exec (mkInvocation cmd args (environ w ++ env))] /\
  procs (snd (runCommand cmd args env anonymArgs w)) = tail (procs w) /\
  environ (snd (runCommand cmd args env anonymArgs w)) = environ w.
Proof.
  destruct w as [s icc e af ff en ps tr].
  unfold runCommand, next_process, bind, ret, record, get_sys, put_sys, emit,
    set_sys, set_procs.
  cbn [procs environ trace sys fst snd].
  destruct ps as [|[err|f [x|]] ps]; cbn [fst snd trace procs environ tail];
    repeat split; reflexivity.
Qed.

Lemma loginClient_run namespace w config :
  inClusterConfig w = inr config ->
  loginClient namespace w =
  let w1 := snd (unique w) in
  let configFile := ConfigFilePattern (fst (unique w)) in
  let env := ["KUBECONFIG=" +:+ configFile] in
  let args := ["login"; Host config;
               "--certificate-authority=" +:+ CAFile config;
               "--token=" +:+ BearerToken config] in
  let r1 := runCommand "oc" args env args w1 in
  match fst r1 with
  | Some err => (("", Some err), snd r1)
  | None =>
      let r2 := runCommand "oc" ["project"; namespace] env
                           ["project"; namespace] (snd r1) in
      match fst r2 with
      | Some err => (("", Some err), snd r2)
      | None => ((configFile, None), snd r2)
      end
  end.
Proof.
  intros Hc. unfold loginClient.
  rewrite bind_proj. unfold rest_InClusterConfig at 1 2. cbn [fst snd]. rewrite Hc.
  cbv beta iota. rewrite bind_proj. cbv beta zeta. rewrite bind_proj.
  cbn [List.app].
  match goal with |- context [fst (runCommand ?c ?a ?e ?n ?w0)] =>
    destruct (fst (runCommand c a e n w0)) end; [reflexivity|].
  rewrite bind_proj.
  match goal with |- context [fst (runCommand ?c ?a ?e ?n ?w0)] =>
    destruct (fst (runCommand c a e n w0)) end; reflexivity.
Qed.

(** X15.  The login, in full.  Without an in-cluster configuration no
    command is run.  Otherwise [oc login] is run with the host, the CA file
    and the token, then, only if it succeeded, [oc project] with the
    namespace; both get the environment of the controller followed by
    KUBECONFIG set to the kubeconfig file of this pass, and the path of
    that file is returned exactly when both succeeded. *)
Theorem loginClient_commands (namespace : string) (w : World) :
  let out := loginClient namespace w in
  match inClusterConfig w with
  | inl err => out = (("", Some err), w)
  | inr config =>
      let configFile := ConfigFilePattern (fst (unique w)) in
      let env := environ w ++ ["KUBECONFIG=" +:+ configFile] in
      let login :=
        mkInvocation "oc"
          ["login"; Host config;
           "--certificate-authority=" +:+ CAFile config;
           "--token=" +:+ BearerToken config] env in
      let project := mkInvocation "oc" ["project"; namespace] env in
      match exitOf (procs w), exitOf (tail (procs w)) with
      | Some err, _ =>
          fst out = ("", Some err) /\ trace (snd out) = trace w ++ [Exec login]
      | None, Some err =>
          fst out = ("", Some err) /\
          trace (snd out) = trace w ++ [Exec login; Exec project]
      | None, None =>
          fst out = (configFile, None) /\
          trace (snd out) = trace w ++ [Exec login; Exec project]
      end
  end.
Proof.
  intros out. subst out.
  destruct (inClusterConfig w) as [err|config] eqn:Hc.
  - unfold loginClient. rewrite bind_proj. unfold rest_InClusterConfig at 1 2.
    cbn [fst snd]. now rewrite Hc.
  - rewrite (loginClient_run namespace w config Hc). cbv zeta.
    destruct (unique_frame w) as (Hp & He & Ht).
    set (w1 := snd (unique w)) in *.
    match goal with
    | |- context [runCommand ?c ?a ?e ?n w1] =>
        destruct (runCommand_frame c a e n w1) as (Hx1 & Ht1 & Hp1 & He1);
        set (r1 := runCommand c a e n w1) in *
    end.
    rewrite Hx1, Hp. rewrite Hp in Hp1. rewrite Ht, He in Ht1.
    destruct (exitOf (procs w)) as [err|]; [now split|].
    match goal with
    | |- context [runCommand ?c ?a ?e ?n (snd r1)] =>
        destruct (runCommand_frame c a e n (snd r1)) as (Hx2 & Ht2 & _ & _);
        set (r2 := runCommand c a e n (snd r1)) in *
    end.
    rewrite Hx2, Hp1. rewrite Ht1, He1, He, <- app_assoc in Ht2.
    destruct (exitOf (tail (procs w))) as [err|]; now split.
Qed.

(** ** [generateInventory] and the faults of the file system *)

Lemma pop_fault_hd_tail q : pop_fault q = (hd None q, tail q).
Proof. now destruct q. Qed.

Lemma hd_drop {A} (d : A) k (q : list A) : hd d (drop k q) = nth k q d.
Proof.
  revert q. induction k as [|k IH]; intros [|x q]; try reflexivity. apply IH.
Qed.

Lemma tail_drop {A} k (q : list A) : tail (drop k q) = drop (S k) q.
Proof.
  revert q. induction k as [|k IH]; intros [|x q]; try reflexivity. apply IH.
Qed.

Lemma WriteString_drop path data w q k :
  fs_faults w = drop k q ->
  exists w', WriteString path data w = (nth k q None, w') /\
             fs_faults w' = drop (S k) q.
Proof.
  intros H.
  unfold WriteString, bind, ret, record, fs_fault, get_sys, put_sys.
  cbn [fst snd]. change (fs_faults (emit (FsWrite path data) w)) with (fs_faults w).
  rewrite pop_fault_hd_tail, H, hd_drop, tail_drop.
  destruct (nth k q None); eexists; split; reflexivity.
Qed.

Lemma when_true_bind {A B} (c : M A) (k : unit -> M B) w :
  bind (when_ true c) k w = bind c (fun _ => k tt) w.
Proof. unfold when_, bind, ret. now destruct (c w). Qed.

Ltac fault_step H :=
  match goal with
  | |- context [bind (when_ true ?c) ?k ?w] => rewrite (when_true_bind c k w)
  | |- context [bind (when_ false ?c) ?k ?w] =>
      change (bind (when_ false c) k w) with (k tt w); cbv beta
  | |- context [bind (WriteString ?p ?d) ?k ?w] =>
      let w' := fresh "w" in
      let E := fresh "E" in
      let H' := fresh "H" in
      destruct (WriteString_drop p d w _ _ H) as (w' & E & H');
      rewrite (bind_run _ _ _ _ _ E); clear E H; rename H' into H
  end.

(** X16.  Of all its writes [generateInventory] checks the last one only.
    Once the file is created, the outcome is the outcome of the write of
    the last line: a failure of any earlier write goes unnoticed, and the
    path is still returned as a success. *)
Theorem generateInventory_checks_the_last_write_only
    (instance : KWebUI) (namespace action : string) (w : World)
    (q : list (option error)) :
  fs_faults w = None :: q ->
  let n := (10 + length (spec_optionalLines (Spec instance) action))%nat in
  fst (generateInventory instance namespace action w) =
    match nth n q None with
    | Some err => ("", Some err)
    | None => (InventoryFilePattern (fst (unique w)), None)
    end.
Proof.
  intros Hq n. subst n. unfold generateInventory.
  destruct (unique_run w) as (suffix & w0 & Eu & Hfs & _).
  rewrite (bind_run _ _ _ _ _ Eu). rewrite Eu. cbn [fst]. cbv zeta.
  rewrite <- Hfs in Hq. clear Eu Hfs.
  assert (Hc : exists w1, os_Create (InventoryFilePattern suffix) w0 = (None, w1) /\
                          fs_faults w1 = drop 0 q).
  { unfold os_Create, bind, ret, record, fs_fault, get_sys, put_sys.
    cbn [fst snd]. change (fs_faults (emit _ w0)) with (fs_faults w0).
    rewrite Hq. eexists. split; reflexivity. }
  destruct Hc as (w1 & E & H). rewrite (bind_run _ _ _ _ _ E). clear E Hq.
  unfold spec_optionalLines.
  destruct (decide (action = "deprovision")) as [Ha|Ha];
    [rewrite (bool_decide_eq_true_2 _ Ha) | rewrite (bool_decide_eq_false_2 _ Ha)];
  (destruct (decide (OpenshiftMasterDefaultSubdomain (Spec instance) = "")) as [Hs|Hs];
    [rewrite bool_decide_eq_false_2 by (intros Hn; exact (Hn Hs))
    | rewrite (bool_decide_eq_true_2 _ Hs)]);
  (destruct (decide (PublicMasterHostname (Spec instance) = "")) as [Hp|Hp];
    [rewrite bool_decide_eq_false_2 by (intros Hn; exact (Hn Hp))
    | rewrite (bool_decide_eq_true_2 _ Hp)]).
  all: repeat fault_step H.
  all: cbn [List.app length Nat.add].
  all: match goal with |- context [nth ?k ?l None] => destruct (nth k l None) end.
  all: reflexivity.
Qed.

(** The write of the action line fails, the one of the last line does not:
    the inventory is reported as generated, and has no action line. *)
Lemma generateInventory_checks_the_last_write_only_witness :
  let failure := ErrOther "write: no space left on device" in
  let w := Scenario.world (Scenario.cluster "v2.0" None) []
             [None; None; None; None; Some failure] [] in
  let out := generateInventory (Scenario.cr "v2.0") Scenario.ns "provision" w in
  fst out = ("/tmp/inventory_0102030405.ini", None) /\
  In (FsWrite "/tmp/inventory_0102030405.ini" ("apb_action=provision" +:+ nl))
     (trace (snd out)) /\
  files (sys (snd out)) !! "/tmp/inventory_0102030405.ini" =
    Some "[OSEv3:children]
masters

[OSEv3:vars]
platform=openshift
registry_url=quay.io
registry_namespace=kubevirt
docker_tag=v2.0
kubevirt_web_ui_namespace=kubevirt-web-ui

[masters]
127.0.0.1 ansible_connection=local
".
Proof.
  intros failure w out.
  pose proof (generateInventory_checks_the_last_write_only (Scenario.cr "v2.0")
                Scenario.ns "provision" w
                [None; None; None; Some failure] eq_refl) as H.
  cbv zeta in H. subst out. split; [rewrite H; run|].
  split; [|run].
  vm_compute. do 4 right. left. reflexivity.
Defined.

(** X17.  When the inventory file cannot be created, [generateInventory]
    returns that error with an empty path and writes nothing: the attempt
    to create the file is its only call, and no file has changed. *)
Theorem generateInventory_create_failure
    (instance : KWebUI) (namespace action : string) (w : World)
    (err : error) (q : list (option error)) :
  fs_faults w = Some err :: q ->
  let out := generateInventory instance namespace action w in
  fst out = ("", Some err) /\
  trace (snd out) = trace w ++ [FsCreate (InventoryFilePattern (fst (unique w)))] /\
  sys (snd out) = sys w /\
  fs_faults (snd out) = q.
Proof.
  intros Hq out. subst out. unfold generateInventory.
  destruct w as [s icc env af ff en ps tr]. cbn [fs_faults] in Hq. subst ff.
  unfold unique, rand_Read, os_Create, bind, ret, record, fs_fault, get_sys,
    put_sys, emit, set_entropy, set_fs_faults.
  destruct en as [|[b|] en]; cbn; repeat split; reflexivity.
Qed.

Lemma generateInventory_create_failure_witness :
  let failure := ErrOther "open /tmp/inventory: permission denied" in
  let w := Scenario.world (Scenario.cluster "v2.0" None) [] [Some failure] [] in
  let out := generateInventory (Scenario.cr "v2.0") Scenario.ns "provision" w in
  fst out = ("", Some failure) /\ files (sys (snd out)) = ∅.
Proof.
  intros failure w out.
  destruct (generateInventory_create_failure (Scenario.cr "v2.0") Scenario.ns
              "provision" w failure [] eq_refl) as (Hres & _ & Hsys & _).
  subst out. split; [exact Hres|]. rewrite Hsys. reflexivity.
Defined.

(** ** The random suffix *)

Lemma hexDigit_hex n : (n < 16)%N -> isUpperHex (hexDigit n) = true.
Proof.
  intros H. destruct n as [|p]; [reflexivity|].
  do 4 (try (destruct p as [p|p|]; try reflexivity)); lia.
Qed.

Lemma hexDigit_code n :
  (n < 16)%N -> N_of_ascii (hexDigit n) = (if (n <? 10)%N then 48 + n else 55 + n)%N.
Proof.
  intros H. unfold hexDigit.
  destruct (n <? 10)%N; apply N_ascii_embedding; lia.
Qed.

Lemma hexDigit_inj n m :
  (n < 16)%N -> (m < 16)%N -> hexDigit n = hexDigit m -> n = m.
Proof.
  intros Hn Hm E. apply (f_equal N_of_ascii) in E.
  rewrite !hexDigit_code in E by assumption.
  destruct (n <? 10)%N eqn:En; destruct (m <? 10)%N eqn:Em;
    rewrite ?N.ltb_lt, ?N.ltb_ge in *; lia.
Qed.

Lemma Sprintf_X_cons x b :
  Sprintf_X (x :: b) =
  String (hexDigit (x / 16)) (String (hexDigit (x mod 16)) (Sprintf_X b)).
Proof. reflexivity. Qed.

Lemma Sprintf_X_shape b :
  Forall (fun x => (x < 256)%N) b ->
  String.length (Sprintf_X b) = (2 * length b)%nat /\
  allChars isUpperHex (Sprintf_X b) = true.
Proof.
  induction 1 as [|x b Hx _ [IHl IHc]]; [now split|].
  rewrite Sprintf_X_cons. cbn [String.length allChars length]. split; [lia|].
  rewrite !hexDigit_hex, IHc; [reflexivity | |].
  - apply N.mod_lt. discriminate.
  - apply N.Div0.div_lt_upper_bound. lia.
Qed.

Lemma Sprintf_X_inj b1 b2 :
  Forall (fun x => (x < 256)%N) b1 -> Forall (fun x => (x < 256)%N) b2 ->
  Sprintf_X b1 = Sprintf_X b2 -> b1 = b2.
Proof.
  intros H1. revert b2.
  induction H1 as [|x b1 Hx _ IH]; intros b2 H2 E.
  - destruct H2; [reflexivity | discriminate E].
  - destruct H2 as [|y b2 Hy H2]; [discriminate E|].
    rewrite !Sprintf_X_cons in E. injection E as Ehi Elo Erest.
    apply hexDigit_inj in Ehi; [|apply N.Div0.div_lt_upper_bound; lia ..].
    apply hexDigit_inj in Elo; [|apply N.mod_lt; discriminate ..].
    f_equal; [|now apply IH].
    rewrite (N.div_mod x 16), (N.div_mod y 16) by discriminate. congruence.
Qed.

Lemma rand_Read_bytes w :
  match fst (rand_Read w) with
  | None => True
  | Some b => fiveBytes b
  end.
Proof.
  unfold rand_Read. destruct (entropy w) as [|[bs|] q]; cbn [fst option_map]; try exact I.
  split.
  - rewrite length_take, length_app, length_map, repeat_length. lia.
  - apply Forall_take, Forall_app. split.
    + apply Forall_map. apply Forall_forall. intros x _. cbn.
      apply N.mod_lt. discriminate.
    + apply Forall_forall. intros x Hx.
      apply list_elem_of_In, repeat_spec in Hx. subst. reflexivity.
Qed.

Lemma rand_Read_five b q w :
  entropy w = Some b :: q -> fiveBytes b -> fst (rand_Read w) = Some b.
Proof.
  intros E [Hl Hb]. unfold rand_Read. rewrite E. cbn [fst option_map]. f_equal.
  assert (Em : map (fun n => (n mod 256)%N) b = b).
  { clear Hl E. induction Hb as [|x b Hx _ IH]; [reflexivity|].
    cbn [map]. rewrite IH. f_equal. now apply N.mod_small. }
  rewrite Em. rewrite take_app_length'; [reflexivity | now symmetry].
Qed.

(** X18.  The suffix [unique] returns is ten upper-case hexadecimal digits
    when the random source delivers, and the literal "abcde" when it fails;
    the two can never be confused. *)
Theorem unique_suffix_shape (w : World) :
  let suffix := fst (unique w) in
  match fst (rand_Read w) with
  | Some _ =>
      String.length suffix = 10%nat /\ allChars isUpperHex suffix = true /\
      suffix <> "abcde"
  | None => suffix = "abcde"
  end.
Proof.
  intros suffix. subst suffix. unfold unique. rewrite bind_proj.
  pose proof (rand_Read_bytes w) as H.
  destruct (fst (rand_Read w)) as [b|]; [|reflexivity].
  destruct H as [Hl Hb]. cbn [ret fst].
  destruct (Sprintf_X_shape b Hb) as [Hlen Hhex].
  rewrite Hl in Hlen. split; [exact Hlen|]. split; [exact Hhex|].
  intros E. rewrite E in Hlen. discriminate Hlen.
Qed.

Lemma append_inj_same_length (a b c d : string) :
  String.length a = String.length b -> a +:+ c = b +:+ d -> a = b.
Proof.
  revert b. induction a as [|x a IH]; intros [|y b] Hl E; try discriminate Hl.
  - reflexivity.
  - change (String x (a +:+ c) = String y (b +:+ d)) in E.
    injection E as -> E. f_equal. apply IH; [now injection Hl | exact E].
Qed.

(** X19.  Different random bytes give different files: when the random
    source delivers different five bytes to two calls of [unique], the
    suffixes differ, and so do the kubeconfig paths and the inventory
    paths made from them. *)
Theorem different_bytes_different_files
    (w1 w2 : World) (b1 b2 : list N) (q1 q2 : list (option (list N))) :
  entropy w1 = Some b1 :: q1 ->
  entropy w2 = Some b2 :: q2 ->
  fiveBytes b1 -> fiveBytes b2 ->
  b1 <> b2 ->
  let s1 := fst (unique w1) in
  let s2 := fst (unique w2) in
  s1 <> s2 /\
  ConfigFilePattern s1 <> ConfigFilePattern s2 /\
  InventoryFilePattern s1 <> InventoryFilePattern s2.
Proof.
  intros E1 E2 F1 F2 Hne s1 s2.
  assert (H1 : s1 = Sprintf_X b1).
  { subst s1. unfold unique. rewrite bind_proj, (rand_Read_five b1 q1) by assumption.
    reflexivity. }
  assert (H2 : s2 = Sprintf_X b2).
  { subst s2. unfold unique. rewrite bind_proj, (rand_Read_five b2 q2) by assumption.
    reflexivity. }
  assert (Hs : s1 <> s2).
  { rewrite H1, H2. intros E. apply Hne.
    apply Sprintf_X_inj; [apply F1 | apply F2 | exact E]. }
  assert (Hlen : String.length s1 = String.length s2).
  { rewrite H1, H2.
    destruct (Sprintf_X_shape b1 (proj2 F1)) as [-> _].
    destruct (Sprintf_X_shape b2 (proj2 F2)) as [-> _].
    now rewrite (proj1 F1), (proj1 F2). }
  split; [exact Hs|]. split.
  - unfold ConfigFilePattern. intros E. apply Hs.
    now apply (String.app_inj "/tmp/config_").
  - unfold InventoryFilePattern. intros E. apply Hs.
    apply (String.app_inj "/tmp/inventory_") in E.
    now apply (append_inj_same_length _ _ ".ini" ".ini").
Qed.

Lemma different_bytes_different_files_witness :
  let w1 := Scenario.world (Scenario.cluster "v2.0" None) [] [] [] in
  let w2 := snd (unique w1) in
  fst (unique w1) = "0102030405" /\ fst (unique w2) = "060708090A" /\
  InventoryFilePattern (fst (unique w1)) <> InventoryFilePattern (fst (unique w2)).
Proof.
  intros w1 w2.
  destruct (different_bytes_different_files w1 w2
              [1; 2; 3; 4; 5]%N [6; 7; 8; 9; 10]%N
              [Some [6; 7; 8; 9; 10]%N; Some [11; 12; 13; 14; 15]%N;
               Some [16; 17; 18; 19; 20]%N]
              [Some [11; 12; 13; 14; 15]%N; Some [16; 17; 18; 19; 20]%N])
    as (_ & _ & H).
  - reflexivity.
  - reflexivity.
  - split; [reflexivity | repeat constructor].
  - split; [reflexivity | repeat constructor].
  - discriminate.
  - split; [reflexivity|]. split; [reflexivity | exact H].
Defined.

(** ** The files and processes of a pass *)

Lemma emitsR_ret {A} P (Q : A -> Prop) (a : A) : Q a -> emitsR P Q (ret a).
Proof.
  intros H w. exists []. split; [symmetry; apply app_nil_r|]. now split.
Qed.

Lemma emitsR_bind {A B} P (Q1 : A -> Prop) (Q : B -> Prop) (m : M A) (k : A -> M B) :
  emitsR P Q1 m -> (forall a, Q1 a -> emitsR P Q (k a)) -> emitsR P Q (bind m k).
Proof.
  intros Hm Hk w. rewrite bind_proj.
  destruct (Hm w) as (evs1 & E1 & F1 & H1).
  destruct (Hk (fst (m w)) H1 (snd (m w))) as (evs2 & E2 & F2 & H2).
  exists (evs1 ++ evs2). split; [|split].
  - rewrite E2, E1. symmetry. apply app_assoc.
  - apply Forall_app. now split.
  - exact H2.
Qed.

Lemma emitsR_of_emits {A} P (m : M A) : emits P m -> emitsR P (fun _ => True) m.
Proof.
  intros H w. destruct (H w) as (evs & E & F). exists evs. now repeat split.
Qed.

Lemma emits_of_emitsR {A} P (Q : A -> Prop) (m : M A) : emitsR P Q m -> emits P m.
Proof.
  intros H w. destruct (H w) as (evs & E & F & _). exists evs. now split.
Qed.

Lemma emits_runCommand_env P cmd args env anonymArgs :
  (forall e, P (Exec (mkInvocation cmd args (e ++ env)))) ->
  emits P (runCommand cmd args env anonymArgs).
Proof.
  intros H w. unfold runCommand.
  match goal with
  | |- context [bind ?m ?k w] => assert (He : emits P (bind m k))
  end.
  { emits_prim; auto. }
  exact (He w).
Qed.

Lemma own_child cmd args e s :
  cmd = "oc" \/ cmd = "ansible-playbook" ->
  ownFilesAndChildren
    (Exec (mkInvocation cmd args (e ++ ["KUBECONFIG=" +:+ ConfigFilePattern s]))).
Proof.
  intros H. cbn [ownFilesAndChildren inv_cmd inv_env]. split; [exact H|].
  exists s. apply last_snoc.
Qed.

Lemma loginClient_own namespace :
  emitsR ownFilesAndChildren
    (fun out => snd out = None -> exists s, fst out = ConfigFilePattern s)
    (loginClient namespace).
Proof.
  unfold loginClient.
  eapply emitsR_bind; [apply emitsR_of_emits; emits_steps|]. intros config _.
  destruct config as [err|config]; [apply emitsR_ret; discriminate|].
  eapply emitsR_bind; [apply emitsR_of_emits; unfold unique; emits_steps|].
  intros suffix _. cbv zeta.
  eapply emitsR_bind.
  { apply emitsR_of_emits, emits_runCommand_env. intros e. apply own_child. now left. }
  intros [err|] _; [apply emitsR_ret; discriminate|].
  eapply emitsR_bind.
  { apply emitsR_of_emits, emits_runCommand_env. intros e. apply own_child. now left. }
  intros [err|] _; apply emitsR_ret; [discriminate|]. intros _. now exists suffix.
Qed.

Lemma WriteString_own s data :
  emitsR ownFilesAndChildren (fun _ => True)
         (WriteString (InventoryFilePattern s) data).
Proof.
  apply emitsR_of_emits. unfold WriteString. emits_steps.
  cbn [ownFilesAndChildren]. now exists s.
Qed.

Lemma when_WriteString_own b s data :
  emitsR ownFilesAndChildren (fun _ => True)
         (when_ b (WriteString (InventoryFilePattern s) data)).
Proof.
  unfold when_. destruct b; [|now apply emitsR_ret].
  eapply emitsR_bind; [apply WriteString_own|]. intros _ _. now apply emitsR_ret.
Qed.

Lemma generateInventory_own instance namespace action :
  emitsR ownFilesAndChildren
    (fun out => snd out = None -> exists s, fst out = InventoryFilePattern s)
    (generateInventory instance namespace action).
Proof.
  unfold generateInventory.
  eapply emitsR_bind; [apply emitsR_of_emits; unfold unique; emits_steps|].
  intros suffix _. cbv zeta.
  eapply emitsR_bind.
  { apply emitsR_of_emits. unfold os_Create. emits_steps.
    cbn [ownFilesAndChildren]. now exists suffix. }
  intros [err|] _; [apply emitsR_ret; discriminate|].
  repeat (eapply emitsR_bind;
          [first [apply WriteString_own | apply when_WriteString_own] | intros ? _]).
  match goal with |- emitsR _ _ (match ?x with _ => _ end) => destruct x end;
    apply emitsR_ret; [discriminate|]. intros _. now exists suffix.
Qed.

Lemma removeFile_own path :
  (exists s, path = InventoryFilePattern s \/ path = ConfigFilePattern s) ->
  emitsR ownFilesAndChildren (fun _ => True) (removeFile path).
Proof.
  intros H. apply emitsR_of_emits. unfold removeFile, os_Remove.
  emits_steps; exact H.
Qed.

Lemma runPlaybookWithSetup_own namespace instance action :
  emits ownFilesAndChildren (runPlaybookWithSetup namespace instance action).
Proof.
  apply (emits_of_emitsR _ (fun _ => True)). unfold runPlaybookWithSetup.
  eapply emitsR_bind; [apply loginClient_own|].
  intros [configFile [err|]] Hlogin; cbn [fst snd] in *; cbv zeta;
    [now apply emitsR_ret|].
  destruct (Hlogin eq_refl) as [sc ->].
  eapply emitsR_bind; [apply generateInventory_own|].
  intros [inventoryFile [err|]] Hinv; cbn [fst snd] in *.
  - eapply emitsR_bind; [apply removeFile_own; eauto|]. intros _ _.
    now apply emitsR_ret.
  - destruct (Hinv eq_refl) as [si ->].
    eapply emitsR_bind.
    { apply emitsR_of_emits. unfold runPlaybook. apply emits_runCommand_env.
      intros e. apply own_child. now right. }
    intros err _.
    eapply emitsR_bind; [apply removeFile_own; eauto|]. intros _ _.
    eapply emitsR_bind; [apply removeFile_own; eauto|]. intros _ _.
    now apply emitsR_ret.
Qed.

#[export] Hint Resolve runPlaybookWithSetup_own : emits.

Lemma freshProvision_own r request instance :
  emits ownFilesAndChildren (freshProvision r request instance).
Proof. unfold freshProvision. emits_steps; exact I. Qed.

Lemma deprovision_own r request instance :
  emits ownFilesAndChildren (deprovision r request instance).
Proof. unfold deprovision. emits_steps; exact I. Qed.

Lemma reconcileExistingDeployment_own r request instance deployment :
  emits ownFilesAndChildren
        (reconcileExistingDeployment r request instance deployment).
Proof.
  unfold reconcileExistingDeployment.
  emits_steps; try exact I; auto using freshProvision_own, deprovision_own.
Qed.

(** X20.  The two kinds of ephemeral file can never be the same file:
    whatever the suffixes, a kubeconfig path and an inventory path
    differ. *)
Theorem config_and_inventory_paths_differ (s1 s2 : string) :
  ConfigFilePattern s1 <> InventoryFilePattern s2.
Proof.
  unfold ConfigFilePattern, InventoryFilePattern. intros E.
  vm_compute in E. discriminate E.
Qed.

(** X21.  A pass keeps to its own files and processes.  Every file it
    creates or writes is an inventory file /tmp/inventory_<suffix>.ini;
    every file it removes is such a file or a kubeconfig file
    /tmp/config_<suffix>; every process it runs is [oc] or
    [ansible-playbook], with KUBECONFIG set to a kubeconfig file of that
    name as the last entry of its environment. *)
Theorem pass_keeps_to_its_own_files_and_processes
    (r : ReconcileKWebUI) (request : Request) (w : World) :
  exists evs,
    trace (snd (Reconcile r request w)) = trace w ++ evs /\
    Forall ownFilesAndChildren evs.
Proof.
  assert (H : emits ownFilesAndChildren (Reconcile r request)).
  { unfold Reconcile.
    emits_steps; try exact I;
      auto using freshProvision_own, reconcileExistingDeployment_own. }
  exact (H w).
Qed.

(** ** The log of a child's output *)

Example Split_lines : Split ("a" +:+ nl +:+ "bc" +:+ nl) nl = ["a"; "bc"; ""].
Proof. reflexivity. Qed.

Example Split_longer_separator : Split "x, y, z" ", " = ["x"; "y"; "z"].
Proof. reflexivity. Qed.

(** X22.  [logPerLine] makes one entry per line of the output and one
    more: as many entries as the output has newlines, plus one, so an
    output that ends in a newline gets a last entry without text.  Each
    entry is the header, ": " and a line without newline, and the lines
    joined by newlines are the output again. *)
Theorem logPerLine_entries (header out : string) :
  let lines := Split out nl in
  logPerLine header out =
    map (fun line => LogInfo (header +:+ ": " +:+ line)) lines /\
  length (logPerLine header out) = S (countChar newline out) /\
  Forall (fun line => hasChar newline line = false) lines /\
  String.concat nl lines = out.
Proof.
  intros lines. subst lines. unfold logPerLine, Split.
  split; [reflexivity|]. split; [|split].
  - now rewrite length_map, Split_from_nl_length.
  - now apply Split_from_nl_fields.
  - apply Split_from_nl_concat.
Qed.

Lemma pipeToLog_app (pre rest : list (string * option ReadError)) name :
  Forall (fun rd => snd rd = None) pre ->
  pipeToLog (pre ++ rest) name = pipeToLog pre name ++ pipeToLog rest name.
Proof.
  induction 1 as [|[data err] pre Hrd _ IH]; [reflexivity|].
  cbn [snd] in Hrd. subst err. cbn [List.app pipeToLog].
  now rewrite IH, app_assoc.
Qed.

(** X23.  [pipeToLog] stops at the first read that returns an error and
    reads nothing after it.  What that read still delivered is logged;
    the error itself is logged, once and last, unless it is [io.EOF]
    itself, which is not logged at all.  An error that is not [io.EOF] is
    logged whatever its text, "EOF" included.  Every read before is logged
    by [logPerLine] on its own, so a line that comes in two reads makes two
    entries. *)
Theorem pipeToLog_stops_at_the_first_error
    (pre rest : list (string * option ReadError)) (data : string) (err : ReadError)
    (name : string) :
  Forall (fun rd => snd rd = None) pre ->
  let log := pipeToLog (pre ++ (data, Some err) :: rest) name in
  let lines rd := if decide (strings.len (fst rd) > 0)
                  then logPerLine name (fst rd) else [] in
  let report := match err with
                | io_EOF => []
                | ReadFailed e => [LogError e (name +:+ " read error")]
                end in
  log = concat (map lines pre) ++ lines (data, Some err) ++ report /\
  List.filter (fun e => negb (isInfo e)) log = report.
Proof.
  intros Hpre log lines report.
  assert (Hp : pipeToLog pre name = concat (map lines pre) /\
               forallb isInfo (pipeToLog pre name) = true).
  { clear log. induction Hpre as [|[d e] pre Hrd _ [IH1 IH2]]; [now split|].
    cbn [snd] in Hrd. subst e. cbn [pipeToLog map concat]. rewrite IH1.
    split; [reflexivity|]. rewrite <- IH1. rewrite forallb_app, IH2, andb_true_r.
    subst lines. cbn [fst]. destruct (decide _); [|reflexivity].
    unfold logPerLine. now induction (Split d nl). }
  assert (Hl : forallb isInfo (lines (data, Some err)) = true).
  { subst lines. cbn [fst]. destruct (decide _); [|reflexivity].
    unfold logPerLine. now induction (Split data nl). }
  assert (E : log = concat (map lines pre) ++ lines (data, Some err) ++ report).
  { subst log report. rewrite pipeToLog_app by exact Hpre. rewrite (proj1 Hp).
    now f_equal. }
  split; [exact E|]. rewrite E, <- (proj1 Hp).
  assert (Hf : forall l, forallb isInfo l = true ->
                         List.filter (fun e => negb (isInfo e)) l = []).
  { induction l as [|x l IH]; [reflexivity|]. cbn [forallb List.filter].
    intros H. apply andb_prop in H as [Hx Hr]. rewrite Hx. cbn [negb]. now apply IH. }
  rewrite !List.filter_app, (Hf _ (proj2 Hp)), (Hf _ Hl).
  subst report. now destruct err.
Qed.

(** A line that arrives in two reads, then the end of the pipe; and the
    same with a read that fails with an error that prints as "EOF". *)
Lemma pipeToLog_stops_at_the_first_error_witness :
  pipeToLog [("Provis", None); ("ioned" +:+ nl, None); ("", Some io_EOF);
             ("never read", None)] "stdout" =
    [LogInfo "stdout: Provis"; LogInfo "stdout: ioned"; LogInfo "stdout: "] /\
  pipeToLog [("Provis", None); ("ioned" +:+ nl, None);
             ("", Some (ReadFailed (ErrOther "EOF"))); ("never read", None)] "stdout" =
    [LogInfo "stdout: Provis"; LogInfo "stdout: ioned"; LogInfo "stdout: ";
     LogError (ErrOther "EOF") "stdout read error"].
Proof.
  destruct (pipeToLog_stops_at_the_first_error
              [("Provis", None); ("ioned" +:+ nl, None)] [("never read", None)]
              "" io_EOF "stdout") as [E _]; [repeat constructor|].
  destruct (pipeToLog_stops_at_the_first_error
              [("Provis", None); ("ioned" +:+ nl, None)] [("never read", None)]
              "" (ReadFailed (ErrOther "EOF")) "stdout") as [E' _]; [repeat constructor|].
  cbn [List.app] in E, E'. rewrite E, E'. split; reflexivity.
Defined.

(** ** Status writes, one after the other *)

Lemma client_Get_KWebUI_quiet key w o :
  api_faults w = [] -> kwebuis (sys w) !! key = Some o ->
  fst (client_Get_KWebUI key w) = inr o.
Proof.
  intros Hf Ho. destruct w as [s icc env af ff en ps tr].
  cbn [api_faults sys] in *. subst af. unfold_client. project. now rewrite Ho.
Qed.

Lemma client_Get_Deployment_quiet key w d :
  api_faults w = [] -> deployments (sys w) !! key = Some d ->
  fst (client_Get_Deployment key w) = inr d.
Proof.
  intros Hf Hd. destruct w as [s icc env af ff en ps tr].
  cbn [api_faults sys] in *. subst af. unfold_client. project. now rewrite Hd.
Qed.

Lemma landing_quiet request w :
  api_faults w = [] ->
  landing request w = kwebuis (sys w) !! Request_NamespacedName request.
Proof. intros H. unfold landing. now rewrite H. Qed.

Lemma statusFaults_quiet request w :
  api_faults w = [] -> statusFaults request w = [].
Proof.
  intros H. unfold statusFaults. rewrite H.
  now destruct (fst (client_Get_KWebUI _ w)).
Qed.

Lemma updateStatus_quiet r request phase msg w o :
  api_faults w = [] ->
  kwebuis (sys w) !! Request_NamespacedName request = Some o ->
  let w' := snd (updateStatus r request phase msg w) in
  api_faults w' = [] /\
  sys w' = set_kwebuis (<[Request_NamespacedName request := set_status phase msg o]>
                          (kwebuis (sys w))) (sys w).
Proof.
  intros Hf Ho w'. subst w'. rewrite updateStatus_run. project.
  split; [now apply statusFaults_quiet|].
  unfold statusSys. now rewrite landing_quiet, Ho.
Qed.

(** X24.  A status write replaces the status as a whole and nothing else.
    With no client fault, two writes in a row leave what the second alone
    would have left: the stored resource has the phase and message of the
    second write and the UID and spec it had before the first; deployments
    and files are untouched. *)
Theorem last_status_write_wins
    (r : ReconcileKWebUI) (request : Request) (p1 m1 p2 m2 : string)
    (w : World) (o : KWebUI) :
  api_faults w = [] ->
  kwebuis (sys w) !! Request_NamespacedName request = Some o ->
  let w1 := snd (updateStatus r request p1 m1 w) in
  let w2 := snd (updateStatus r request p2 m2 w1) in
  sys w2 = sys (snd (updateStatus r request p2 m2 w)) /\
  kwebuis (sys w2) !! Request_NamespacedName request =
    Some (mkKWebUI (UID o) (Spec o) (mkKWebUIStatus p2 m2)) /\
  deployments (sys w2) = deployments (sys w) /\
  files (sys w2) = files (sys w).
Proof.
  intros Hf Ho w1 w2.
  destruct (updateStatus_quiet r request p1 m1 w o Hf Ho) as [Hf1 Hs1]. fold w1 in Hf1, Hs1.
  assert (Ho1 : kwebuis (sys w1) !! Request_NamespacedName request =
                Some (set_status p1 m1 o)).
  { rewrite Hs1. cbn [kwebuis set_kwebuis]. apply lookup_insert_eq. }
  destruct (updateStatus_quiet r request p2 m2 w1 _ Hf1 Ho1) as [_ Hs2]. fold w2 in Hs2.
  destruct (updateStatus_quiet r request p2 m2 w o Hf Ho) as [_ Hs].
  assert (E : sys w2 = sys (snd (updateStatus r request p2 m2 w))).
  { rewrite Hs2, Hs, Hs1. unfold set_kwebuis. cbn [kwebuis deployments files].
    now rewrite insert_insert_eq. }
  split; [exact E|]. rewrite E, Hs. cbn [kwebuis deployments files set_kwebuis].
  split; [apply lookup_insert_eq | now split].
Qed.

Lemma last_status_write_wins_witness :
  let w := Scenario.world (Scenario.cluster "v2.0" None) [] [] [] in
  let w1 := snd (updateStatus Scenario.r Scenario.request PhaseOwnerReferenceFailed
                   msgDeploymentNotRetrieved w) in
  let w2 := snd (updateStatus Scenario.r Scenario.request PhaseProvisioned
                   "Provision finished." w1) in
  kwebuis (sys w2) !! (Scenario.ns, "kubevirt-web-ui") =
    Some (mkKWebUI "uid-1" (mkKWebUISpec "v2.0" "" "" "" "")
            (mkKWebUIStatus PhaseProvisioned "Provision finished.")).
Proof.
  intros w w1 w2.
  destruct (last_status_write_wins Scenario.r Scenario.request
              PhaseOwnerReferenceFailed msgDeploymentNotRetrieved
              PhaseProvisioned "Provision finished." w (Scenario.cr "v2.0"))
    as (_ & H & _); [reflexivity | reflexivity |].
  exact H.
Defined.

(** X25.  The steady state is stable.  When the desired version equals the
    deployed tag without its leading "v" and no client call fails, a pass
    returns no error, changes nothing but the status of the resource, and a
    second pass returns no error again and leaves the system exactly as the
    first left it. *)
Theorem steady_state_is_stable
    (r : ReconcileKWebUI) (request : Request) (w : World)
    (instance : KWebUI) (deployment : Deployment) (c : Container) :
  api_faults w = [] ->
  kwebuis (sys w) !! Request_NamespacedName request = Some instance ->
  deployments (sys w) !! (ReqNamespace request, "console") = Some deployment ->
  matchingContainer (Containers deployment) = Some c ->
  normalizedTag c <> "" ->
  Version (Spec instance) = normalizedTag c ->
  let msg := "Existing version conform the requested one: " +:+ normalizedTag c +:+
             ". Nothing to do." in
  let first := Reconcile r request w in
  let second := Reconcile r request (snd first) in
  fst first = (mkResult false, None) /\
  sys (snd first) =
    set_kwebuis (<[Request_NamespacedName request :=
                     set_status PhaseProvisioned msg instance]> (kwebuis (sys w)))
                (sys w) /\
  fst second = (mkResult false, None) /\
  sys (snd second) = sys (snd first).
Proof.
  intros Hf Hi Hd Hc Hne Hv msg first second.
  assert (Pass : forall w0 i0,
             api_faults w0 = [] ->
             kwebuis (sys w0) !! Request_NamespacedName request = Some i0 ->
             deployments (sys w0) !! (ReqNamespace request, "console") = Some deployment ->
             Version (Spec i0) = normalizedTag c ->
             fst (Reconcile r request w0) = (mkResult false, None) /\
             api_faults (snd (Reconcile r request w0)) = [] /\
             sys (snd (Reconcile r request w0)) =
               set_kwebuis (<[Request_NamespacedName request :=
                                set_status PhaseProvisioned msg i0]> (kwebuis (sys w0)))
                           (sys w0)).
  { intros w0 i0 Hf0 Hi0 Hd0 Hv0. rewrite Reconcile_run. cbv zeta.
    rewrite (client_Get_KWebUI_quiet _ _ _ Hf0 Hi0).
    set (w1 := snd (client_Get_KWebUI _ w0)).
    assert (H1 : api_faults w1 = [] /\ sys w1 = sys w0).
    { subst w1. rewrite client_Get_KWebUI_run. project. now rewrite Hf0. }
    destruct H1 as [Hf1 Hs1].
    rewrite (client_Get_Deployment_quiet _ w1 deployment Hf1)
      by (now rewrite Hs1).
    set (w2 := snd (client_Get_Deployment _ w1)).
    assert (H2 : api_faults w2 = [] /\ sys w2 = sys w0).
    { subst w2. rewrite client_Get_Deployment_run. project. now rewrite Hf1. }
    destruct H2 as [Hf2 Hs2].
    rewrite (noop_when_desired_is_the_stripped_tag _ _ _ _ c) by assumption.
    cbn [fst snd]. split; [reflexivity|].
    assert (Hi2 : kwebuis (sys w2) !! Request_NamespacedName request = Some i0)
      by (now rewrite Hs2).
    destruct (updateStatus_quiet r request PhaseProvisioned msg w2 i0 Hf2 Hi2)
      as [Hf3 Hs3].
    split; [exact Hf3|]. fold msg. rewrite Hs3, Hs2. reflexivity. }
  destruct (Pass w instance Hf Hi Hd Hv) as (R1 & F1 & S1).
  fold first in R1, F1, S1.
  split; [exact R1|]. split; [exact S1|].
  destruct (Pass (snd first) (set_status PhaseProvisioned msg instance) F1)
    as (R2 & _ & S2).
  - rewrite S1. cbn [kwebuis set_kwebuis]. apply lookup_insert_eq.
  - rewrite S1. exact Hd.
  - exact Hv.
  - fold second in R2, S2. split; [exact R2|].
    rewrite S2, S1. unfold set_kwebuis. cbn [kwebuis deployments files].
    now rewrite insert_insert_eq.
Qed.

Lemma steady_state_is_stable_witness :
  let image := "quay.io/kubevirt/kubevirt-web-ui:v1.4" in
  let w := Scenario.world (Scenario.cluster "1.4" (Some image)) [] [] [] in
  let first := Reconcile Scenario.r Scenario.request w in
  let second := Reconcile Scenario.r Scenario.request (snd first) in
  fst first = (mkResult false, None) /\
  fst second = (mkResult false, None) /\
  sys (snd second) = sys (snd first) /\
  Scenario.storedPhase (snd second) = Some PhaseProvisioned.
Proof.
  intros image w first second.
  destruct (steady_state_is_stable Scenario.r Scenario.request w
              (Scenario.cr "1.4") (Scenario.console image)
              (mkContainer "console" image))
    as (R1 & _ & R2 & S2).
  - reflexivity.
  - reflexivity.
  - reflexivity.
  - reflexivity.
  - vm_compute; discriminate.
  - reflexivity.
  - split; [exact R1|]. split; [exact R2|]. split; [exact S2|].
    subst second first. unfold Scenario.storedPhase. rewrite S2. run.
Defined.
